(** * optillm: the chat-completions gateway of [optillm.py]

    A shallow embedding of the request handler [proxy] (optillm.py, lines
    44-130), of the module-level [server_config] (lines 31-42) and of the
    write that [main] performs on it (lines 149-162), followed by the
    properties of the handler.

    The handler is Python code that reads a global dict, calls one of ten
    external strategies and may raise at many places.  It is modelled in a
    state-and-exception monad whose state holds the configuration dict and
    the log of strategy calls made so far. *)

From Stdlib Require Import ZArith String Ascii List Lia.
From stdpp Require Import base strings list gmap pretty.

Local Open Scope string_scope.
Local Open Scope Z_scope.

(** ** Python values *)

(** The scalars that the configuration holds (the literals of lines 31-42
    and what argparse stores: str, int, float, bool) and that JSON has.
    A float is never computed on by the gateway, it is only handed on to a
    strategy or printed: it is carried as its [repr]. *)
Inductive scalar : Type :=
| SNone
| SBool (b : bool)
| SInt (z : Z)
| SFloat (repr : string)
| SStr (s : string).

(** What [request.get_json()] yields and what a strategy returns: scalars,
    lists, and dicts with string keys.  A dict is the list of its items in
    insertion order; its keys are distinct, and a lookup takes the first
    item of that key. *)
#[local] Set Warnings "-register-all".
Inductive value : Type :=
| Atom (a : scalar)
| VList (elems : list value)
| VDict (items : list (string * value)).

Abbreviation VStr s := (Atom (SStr s)).
Abbreviation VInt z := (Atom (SInt z)).

#[global] Instance scalar_eq_dec : EqDecision scalar.
Proof. solve_decision. Defined.

(** [type(v).__name__] *)
Definition type_name (v : value) : string :=
  match v with
  | Atom SNone => "NoneType"
  | Atom (SBool _) => "bool"
  | Atom (SInt _) => "int"
  | Atom (SFloat _) => "float"
  | Atom (SStr _) => "str"
  | VList _ => "list"
  | VDict _ => "dict"
  end.

(** [str(a)], as an f-string formats a scalar. *)
Definition py_str (a : scalar) : string :=
  match a with
  | SNone => "None"
  | SBool true => "True"
  | SBool false => "False"
  | SInt z => pretty z
  | SFloat repr => repr
  | SStr s => s
  end.

(** ** Exceptions *)

(** The exception classes the handler can meet, each with what [str(e)]
    gives.  [StrategyError] stands for whatever [Exception] a strategy
    raises and [ClientError] for whatever the constructor of an [OpenAI]
    client raises.  The texts of the interpreter's own errors (attribute, type and
    index errors) are CPython's; they are raised before the [try] block
    only, so no response ever shows them. *)
Inductive exn : Type :=
| AttributeError (msg : string)
| TypeError (msg : string)
| KeyError (key : string)
| IndexError (msg : string)
| ValueError (msg : string)
| StrategyError (msg : string)
| ClientError (msg : string).

(** [str(e)]; a [KeyError] prints the repr of its key. *)
Definition str_exn (e : exn) : string :=
  match e with
  | AttributeError msg | TypeError msg | IndexError msg
  | ValueError msg | StrategyError msg | ClientError msg => msg
  | KeyError key => "'" +:+ key +:+ "'"
  end.

Definition no_attribute (obj : value) (attr : string) : exn :=
  AttributeError ("'" +:+ type_name obj +:+ "' object has no attribute '" +:+ attr +:+ "'").

(** ** Backend clients and strategy calls *)

(** An [OpenAI] client object, as far as the gateway decides it: the
    credential and the endpoint override it was built with. *)
Record client : Type := OpenAI {
  client_api_key : string;
  client_base_url : option scalar
}.

(** One call of a strategy, with the arguments in the order the handler
    passes them (lines 73-97).  For the two class-based strategies the
    construction of the object and the call of its method are one call. *)
Inductive call : Type :=
| chat_with_mcts (system_prompt initial_query : value) (cl : client) (model : value)
    (simulations exploration depth : scalar)
| best_of_n_sampling (system_prompt initial_query : value) (cl : client) (model : value)
    (best_of_n : scalar)
| mixture_of_agents (system_prompt initial_query : value) (cl : client) (model : value)
| round_trip_optimization (system_prompt initial_query : value) (cl : client) (model : value)
| Z3SolverSystem_process_query (system_prompt : value) (cl : client) (model : value)
    (initial_query : value)
| advanced_self_consistency_approach (system_prompt initial_query : value) (cl : client)
    (model : value)
| inference_time_pv_game (system_prompt initial_query : value) (cl : client) (model : value)
| RStar_solve (system_prompt : value) (cl : client) (model : value)
    (max_depth num_rollouts c : scalar) (initial_query : value)
| cot_reflection (system_prompt initial_query : value) (cl : client) (model : value)
    (return_full_response : scalar)
| plansearch (system_prompt initial_query : value) (cl : client) (model : value) (n : value).

(** What a strategy call comes back with: a value, or an [Exception]
    with its [str]. *)
Inductive outcome : Type :=
| Returned (v : value)
| Raised (msg : string).

Definition call_client (c : call) : client :=
  match c with
  | chat_with_mcts _ _ cl _ _ _ _ | best_of_n_sampling _ _ cl _ _
  | mixture_of_agents _ _ cl _ | round_trip_optimization _ _ cl _
  | Z3SolverSystem_process_query _ cl _ _
  | advanced_self_consistency_approach _ _ cl _
  | inference_time_pv_game _ _ cl _ | RStar_solve _ cl _ _ _ _ _
  | cot_reflection _ _ cl _ _ | plansearch _ _ cl _ _ => cl
  end.

Definition call_model (c : call) : value :=
  match c with
  | chat_with_mcts _ _ _ m _ _ _ | best_of_n_sampling _ _ _ m _
  | mixture_of_agents _ _ _ m | round_trip_optimization _ _ _ m
  | Z3SolverSystem_process_query _ _ m _
  | advanced_self_consistency_approach _ _ _ m
  | inference_time_pv_game _ _ _ m | RStar_solve _ _ m _ _ _ _
  | cot_reflection _ _ _ m _ | plansearch _ _ _ m _ => m
  end.

(** ** The monad of the handler *)

(** The process state a request can see: the global [server_config] dict
    and the strategy calls made so far. *)
Record state : Type := State {
  server_config : gmap string scalar;
  invoked : list call
}.

Inductive result (A : Type) : Type :=
| Ok (a : A)
| Raise (e : exn).
Arguments Ok {A} a.
Arguments Raise {A} e.

Definition M (A : Type) : Type := state -> result A * state.

#[global] Instance M_ret : MRet M := fun A a s => (Ok a, s).

#[global] Instance M_bind : MBind M := fun A B k m s =>
  match m s with
  | (Ok a, s') => k a s'
  | (Raise e, s') => (Raise e, s')
  end.

Definition raise {A : Type} (e : exn) : M A := fun s => (Raise e, s).

(** [try: body except Exception as e: handler e] *)
Definition try_except {A : Type} (body : M A) (handler : exn -> M A) : M A := fun s =>
  match body s with
  | (Ok a, s') => (Ok a, s')
  | (Raise e, s') => handler e s'
  end.

(** [server_config[key]] *)
Definition config_item (key : string) : M scalar := fun s =>
  match server_config s !! key with
  | Some v => (Ok v, s)
  | None => (Raise (KeyError key), s)
  end.

(** [server_config.update(new)]: the items of [new] win. *)
Definition config_update (new : gmap string scalar) : M unit := fun s =>
  (Ok tt, State (new ∪ server_config s) (invoked s)).

(** ** Python operations the handler uses *)

(** [d.get(key, default)] on the items of a dict *)
Fixpoint dict_lookup (items : list (string * value)) (key : string) : option value :=
  match items with
  | [] => None
  | (k, v) :: rest => if bool_decide (k = key) then Some v else dict_lookup rest key
  end.

Definition dict_get (items : list (string * value)) (key : string) (dflt : value) : value :=
  default dflt (dict_lookup items key).

(** Evaluating the attribute [obj.get]: only a dict has it (among the
    values JSON decodes to), and it comes back as the dict's items. *)
Definition getattr_get (obj : value) : M (list (string * value)) :=
  match obj with
  | VDict items => mret items
  | _ => raise (no_attribute obj "get")
  end.

(** [iter(obj)], drawn to the end: a list gives its elements, a dict its
    keys and a str its characters; a scalar that is no str is not
    iterable.  A str of the model is a sequence of bytes where Python's is
    one of code points; both give as many one-character strs as the model
    needs: none for the empty str, and a first one otherwise. *)
Fixpoint characters (s : string) : list value :=
  match s with
  | EmptyString => []
  | String c rest => VStr (String c EmptyString) :: characters rest
  end.

Definition py_iter (obj : value) : M (list value) :=
  match obj with
  | VList elems => mret elems
  | VDict items => mret (map (fun kv => VStr (fst kv)) items)
  | VStr s => mret (characters s)
  | Atom _ => raise (TypeError ("'" +:+ type_name obj +:+ "' object is not iterable"))
  end.

(** [obj[key]] for a str [key] *)
Definition subscript (obj : value) (key : string) : M value :=
  match obj with
  | VDict items =>
      match dict_lookup items key with
      | Some v => mret v
      | None => raise (KeyError key)
      end
  | VList _ => raise (TypeError "list indices must be integers or slices, not str")
  | VStr _ => raise (TypeError "string indices must be integers, not 'str'")
  | Atom _ => raise (TypeError ("'" +:+ type_name obj +:+ "' object is not subscriptable"))
  end.

(** [v == s] for a str literal [s] *)
Definition eq_str (v : value) (s : string) : bool :=
  match v with
  | VStr s' => bool_decide (s' = s)
  | _ => false
  end.

(** [next((msg['content'] for msg in messages if msg['role'] == role), "")]
    over the elements that iterating [messages] gives: the generator is
    drawn until its first item, so the messages after the first match are
    not looked at. *)
Fixpoint next_content (role : string) (msgs : list value) : M value :=
  match msgs with
  | [] => mret (VStr "")
  | msg :: rest =>
      r ← subscript msg "role";
      if eq_str r role then subscript msg "content" else next_content role rest
  end.

(** [s.split('-', 1)]: [Some (before, after)] the first hyphen, if there
    is one.  The hyphen is one byte, which in UTF-8 is part of no other
    character, so splitting the bytes is splitting the code points. *)
Fixpoint split_hyphen (s : string) : option (string * string) :=
  match s with
  | EmptyString => None
  | String c rest =>
      if bool_decide (c = "-"%char) then Some (EmptyString, rest)
      else match split_hyphen rest with
           | Some (before, after) => Some (String c before, after)
           | None => None
           end
  end.

Definition str_split1 (s : string) : list string :=
  match split_hyphen s with
  | Some (before, after) => [before; after]
  | None => [s]
  end.

(** [model.split('-', 1)]: only a str has [split]. *)
Definition split_model (model : value) : M (list string) :=
  match model with
  | VStr s => mret (str_split1 s)
  | _ => raise (no_attribute model "split")
  end.

(** [parts[i]] *)
Definition list_item (parts : list string) (i : nat) : M string :=
  match parts !! i with
  | Some p => mret p
  | None => raise (IndexError "list index out of range")
  end.

(** ** The response *)

(** What the handler returns: [(jsonify(body), status)].  The body is the
    JSON document, before it is written out as text. *)
Record response : Type := Response {
  body : value;
  status : Z
}.

(** One element of ['choices'] (lines 111-118 and 120-127) *)
Definition choice (index : Z) (content : value) : value :=
  VDict [("index", VInt index);
         ("message", VDict [("role", VStr "assistant"); ("content", content)]);
         ("finish_reason", VStr "stop")].

(** [enumerate(l)], counting from [start] *)
Fixpoint enumerate (start : Z) (l : list value) : list (Z * value) :=
  match l with
  | [] => []
  | x :: rest => (start, x) :: enumerate (start + 1) rest
  end.

(** [response_data['choices'].append({...})] *)
Definition append_choice (choices : list value) (ir : Z * value) : list value :=
  choices ++ [choice (fst ir) (snd ir)].

(** Lines 109-127: the list ['choices'] starts empty and gets one choice
    per element of a list result, or one choice for any other result. *)
Definition choices_of (final_response : value) : list value :=
  match final_response with
  | VList responses => fold_left append_choice (enumerate 0 responses) []
  | _ => append_choice [] (0, final_response)
  end.

(** Lines 104-127 *)
Definition response_data (model final_response : value) : value :=
  VDict [("model", model); ("choices", VList (choices_of final_response))].

(** The body of the [except] branch (line 102) *)
Definition error_data (e : exn) : value :=
  VDict [("error", VStr (str_exn e))].

(** The names the dispatch of lines 73-97 knows. *)
Definition approaches : list string :=
  ["mcts"; "bon"; "moa"; "rto"; "z3"; "self_consistency"; "pvg"; "rstar";
   "cot_reflection"; "plansearch"].

(** ** The handler *)

Section Gateway.

(** [API_KEY] (line 27), read from the environment when the module is
    loaded.  If it were unset, building [default_client] on line 28 would
    already fail and there would be no handler. *)
Variable API_KEY : string.

(** The constructor of the [openai] package, called on line 61 with the
    configured base url: whether it raises for that base url, and with
    what [str].  The credential is the one line 28 has built a client
    with, so the base url decides. *)
Variable client_error : scalar -> option string.

(** The strategies that lines 8-17 import from other modules: what each
    call comes back with.  A call is taken to come back, and with a value
    that [jsonify] can write.  The strategies are handed values of the
    configuration, never the dict itself. *)
Variable run : call -> outcome.

(** Line 28 *)
Definition default_client : client := OpenAI API_KEY None.

(** Calling a strategy: the call is made, and returns or raises. *)
Definition invoke (c : call) : M value := fun s =>
  let s' := State (server_config s) (invoked s ++ [c]) in
  match run c with
  | Returned v => (Ok v, s')
  | Raised msg => (Raise (StrategyError msg), s')
  end.

(** [OpenAI(api_key=API_KEY, base_url=base_url)], line 61 *)
Definition new_client (base_url : scalar) : M client :=
  match client_error base_url with
  | Some msg => raise (ClientError msg)
  | None => mret (OpenAI API_KEY (Some base_url))
  end.

(** Lines 60-63 *)
Definition select_client (base_url : scalar) : M client :=
  if bool_decide (base_url ≠ SStr "") then new_client base_url
  else mret default_client.

(** The client that lines 60-63 leave in [client] when line 61 does not
    raise. *)
Definition client_for (base_url : scalar) : client :=
  if bool_decide (base_url ≠ SStr "") then OpenAI API_KEY (Some base_url)
  else default_client.

(** Line 61 is not reached, or its constructor does not raise. *)
Definition client_is_built (base_url : scalar) : Prop :=
  base_url ≠ SStr "" -> client_error base_url = None.

(** The body of the [try] block, lines 73-99 *)
Definition dispatch (approach : scalar) (system_prompt initial_query : value)
    (cl : client) (model n : value) : M value :=
  if bool_decide (approach = SStr "mcts") then
    simulations ← config_item "mcts_simulations";
    exploration ← config_item "mcts_exploration";
    depth ← config_item "mcts_depth";
    invoke (chat_with_mcts system_prompt initial_query cl model simulations exploration depth)
  else if bool_decide (approach = SStr "bon") then
    best_of_n ← config_item "best_of_n";
    invoke (best_of_n_sampling system_prompt initial_query cl model best_of_n)
  else if bool_decide (approach = SStr "moa") then
    invoke (mixture_of_agents system_prompt initial_query cl model)
  else if bool_decide (approach = SStr "rto") then
    invoke (round_trip_optimization system_prompt initial_query cl model)
  else if bool_decide (approach = SStr "z3") then
    invoke (Z3SolverSystem_process_query system_prompt cl model initial_query)
  else if bool_decide (approach = SStr "self_consistency") then
    invoke (advanced_self_consistency_approach system_prompt initial_query cl model)
  else if bool_decide (approach = SStr "pvg") then
    invoke (inference_time_pv_game system_prompt initial_query cl model)
  else if bool_decide (approach = SStr "rstar") then
    max_depth ← config_item "rstar_max_depth";
    num_rollouts ← config_item "rstar_num_rollouts";
    c ← config_item "rstar_c";
    invoke (RStar_solve system_prompt cl model max_depth num_rollouts c initial_query)
  else if bool_decide (approach = SStr "cot_reflection") then
    return_full_response ← config_item "return_full_response";
    invoke (cot_reflection system_prompt initial_query cl model return_full_response)
  else if bool_decide (approach = SStr "plansearch") then
    invoke (plansearch system_prompt initial_query cl model n)
  else
    raise (ValueError ("Unknown approach: " +:+ py_str approach)).

(** What lines 50-55 leave in the local variables: the decoded
    request. *)
Record chat_request : Type := ChatRequest {
  req_model : value;
  req_n : value;
  req_system_prompt : value;
  req_initial_query : value
}.

(** Lines 50-55: decoding the payload.  In [data.get(key, default)] the
    attribute is looked up first, then the default is evaluated. *)
Definition translate (data : value) : M chat_request :=
  (* 50 *)
  get ← getattr_get data;
  let messages := dict_get get "messages" (VList []) in
  (* 51 *)
  get ← getattr_get data;
  default_model ← config_item "model";
  let model := dict_get get "model" (Atom default_model) in
  (* 52 *)
  get ← getattr_get data;
  default_n ← config_item "n";
  let n := dict_get get "n" (Atom default_n) in
  (* 54 *)
  msgs ← py_iter messages;
  system_prompt ← next_content "system" msgs;
  (* 55 *)
  msgs ← py_iter messages;
  initial_query ← next_content "user" msgs;
  mret (ChatRequest model n system_prompt initial_query).

(** What lines 57-68 add: the client, and approach and model as the
    dispatch will see them. *)
Record resolved : Type := Resolved {
  r_request : chat_request;
  r_client : client;
  r_approach : scalar;
  r_model : value
}.

(** Lines 57-68: choosing the client and resolving approach and model. *)
Definition resolve (req : chat_request) : M resolved :=
  (* 57-58 *)
  approach ← config_item "approach";
  base_url ← config_item "base_url";
  (* 60-63 *)
  cl ← select_client base_url;
  (* 65-68 *)
  if bool_decide (approach = SStr "auto") then
    parts ← split_model (req_model req);
    approach ← list_item parts 0;
    model ← list_item parts 1;
    mret (Resolved req cl (SStr approach) (VStr model))
  else
    mret (Resolved req cl approach (req_model req)).

(** Lines 50-68 together.  Nothing of them is inside the [try] block. *)
Definition resolution (data : value) : M resolved :=
  req ← translate data;
  resolve req.

(** Lines 72-130: the [try] block around the dispatch, whose [except]
    branch returns the error response, and the assembly of the response
    from the strategy's result. *)
Definition respond (r : resolved) : M response :=
  caught ← try_except
    (final_response ← dispatch (r_approach r)
                        (req_system_prompt (r_request r)) (req_initial_query (r_request r))
                        (r_client r) (r_model r) (req_n (r_request r));
     mret (inl final_response))
    (fun e => mret (inr (Response (error_data e) 500)));
  match caught with
  | inr error_response => mret error_response
  | inl final_response => mret (Response (response_data (r_model r) final_response) 200)
  end.

(** [proxy()], with [data] what [request.get_json()] gave (line 47).
    The calls of the logger are left out. *)
Definition proxy (data : value) : M response :=
  r ← resolution data;
  respond r.

End Gateway.

(** ** Startup *)

(** The module-level dict of lines 31-42 *)
Definition initial_server_config : gmap string scalar :=
  list_to_map
    [("approach", SStr "bon");
     ("mcts_simulations", SInt 2);
     ("mcts_exploration", SFloat "0.2");
     ("mcts_depth", SInt 1);
     ("best_of_n", SInt 3);
     ("model", SStr "gpt-4o-mini");
     ("rstar_max_depth", SInt 3);
     ("rstar_num_rollouts", SInt 5);
     ("rstar_c", SFloat "1.4");
     ("n", SInt 1)].

(** What [parser.parse_args()] gives (lines 133-147), each argument with
    the type argparse converts it to, a float as its [repr]. *)
Record Namespace : Type := {
  args_approach : string;
  args_simulations : Z;
  args_exploration : string;
  args_depth : Z;
  args_best_of_n : Z;
  args_model : string;
  args_base_url : string;
  args_rstar_max_depth : Z;
  args_rstar_num_rollouts : Z;
  args_rstar_c : string;
  args_n : Z;
  args_return_full_response : bool
}.

(** The dict that line 149 builds from the arguments *)
Definition config_of_args (args : Namespace) : gmap string scalar :=
  list_to_map
    [("model", SStr (args_model args));
     ("approach", SStr (args_approach args));
     ("mcts_simulations", SInt (args_simulations args));
     ("mcts_exploration", SFloat (args_exploration args));
     ("mcts_depth", SInt (args_depth args));
     ("best_of_n", SInt (args_best_of_n args));
     ("rstar_max_depth", SInt (args_rstar_max_depth args));
     ("rstar_num_rollouts", SInt (args_rstar_num_rollouts args));
     ("rstar_c", SFloat (args_rstar_c args));
     ("base_url", SStr (args_base_url args));
     ("return_full_response", SBool (args_return_full_response args));
     ("n", SInt (args_n args))].

(** [main()], lines 149-162, once the arguments are parsed; serving
    starts after it. *)
Definition main (args : Namespace) : M unit :=
  config_update (config_of_args args).

(** The defaults of the arguments (lines 134-146) *)
Definition default_args : Namespace :=
  {| args_approach := "auto"; args_simulations := 2; args_exploration := "0.2";
     args_depth := 1; args_best_of_n := 3; args_model := "gpt-4o-mini";
     args_base_url := ""; args_rstar_max_depth := 3; args_rstar_num_rollouts := 5;
     args_rstar_c := "1.4"; args_n := 1; args_return_full_response := false |}.

(** ** The request as the specification describes it *)

Definition has_key (items : list (string * value)) (key : string) : bool :=
  match dict_lookup items key with
  | Some _ => true
  | None => false
  end.

(** A message of the data model: a dict with a role and a content. *)
Definition is_message (msg : value) : bool :=
  match msg with
  | VDict items => has_key items "role" && has_key items "content"
  | _ => false
  end.

(** A payload of the data model: its ['messages'], if it has the key, is a
    list of messages. *)
Definition chat_payload (d : list (string * value)) : bool :=
  match dict_lookup d "messages" with
  | None => true
  | Some (VList msgs) => forallb is_message msgs
  | Some _ => false
  end.

(** The message sequence of a payload, empty without the key. *)
Definition payload_messages (d : list (string * value)) : list value :=
  match dict_lookup d "messages" with
  | Some (VList msgs) => msgs
  | _ => []
  end.

Definition has_role (role : string) (msg : value) : bool :=
  match msg with
  | VDict items =>
      match dict_lookup items "role" with
      | Some r => eq_str r role
      | None => false
      end
  | _ => false
  end.

Definition content_of (msg : value) : value :=
  match msg with
  | VDict items => dict_get items "content" (VStr "")
  | _ => VStr ""
  end.

(** In the specification's words: the content of the first message whose
    role is [role], or the empty string if there is none. *)
Definition spec_first_content (role : string) (msgs : list value) : value :=
  match find (has_role role) msgs with
  | Some msg => content_of msg
  | None => VStr ""
  end.

(** Whether a str has a hyphen in it. *)
Fixpoint contains_hyphen (s : string) : bool :=
  match s with
  | EmptyString => false
  | String c rest => bool_decide (c = "-"%char) || contains_hyphen rest
  end.



(** A field of a JSON object *)
Definition field (v : value) (key : string) : option value :=
  match v with
  | VDict items => dict_lookup items key
  | _ => None
  end.

(** A field of a response's body *)
Definition body_field (resp : response) (key : string) : option value :=
  field (body resp) key.

(** Whether the dispatch of lines 73-97 has a branch for [approach]. *)
Definition registered (approach : scalar) : bool :=
  existsb (fun name => bool_decide (approach = SStr name)) approaches.

(** A handler step that leaves the configuration as it was. *)
Definition keeps_config {A : Type} (m : M A) : Prop :=
  ∀ s, server_config (snd (m s)) = server_config s.

(** A handler step that changes nothing of the state. *)
Definition pure_step {A : Type} (m : M A) : Prop :=
  ∀ s, snd (m s) = s.

(** ** What a call was given *)

Definition call_system_prompt (c : call) : value :=
  match c with
  | chat_with_mcts sp _ _ _ _ _ _ | best_of_n_sampling sp _ _ _ _
  | mixture_of_agents sp _ _ _ | round_trip_optimization sp _ _ _
  | Z3SolverSystem_process_query sp _ _ _
  | advanced_self_consistency_approach sp _ _ _
  | inference_time_pv_game sp _ _ _ | RStar_solve sp _ _ _ _ _ _
  | cot_reflection sp _ _ _ _ | plansearch sp _ _ _ _ => sp
  end.

Definition call_initial_query (c : call) : value :=
  match c with
  | chat_with_mcts _ iq _ _ _ _ _ | best_of_n_sampling _ iq _ _ _
  | mixture_of_agents _ iq _ _ | round_trip_optimization _ iq _ _
  | Z3SolverSystem_process_query _ _ _ iq
  | advanced_self_consistency_approach _ iq _ _
  | inference_time_pv_game _ iq _ _ | RStar_solve _ _ _ _ _ _ iq
  | cot_reflection _ iq _ _ _ | plansearch _ iq _ _ _ => iq
  end.

(** The approach in whose branch of lines 73-97 the call stands. *)
Definition call_approach (c : call) : string :=
  match c with
  | chat_with_mcts _ _ _ _ _ _ _ => "mcts"
  | best_of_n_sampling _ _ _ _ _ => "bon"
  | mixture_of_agents _ _ _ _ => "moa"
  | round_trip_optimization _ _ _ _ => "rto"
  | Z3SolverSystem_process_query _ _ _ _ => "z3"
  | advanced_self_consistency_approach _ _ _ _ => "self_consistency"
  | inference_time_pv_game _ _ _ _ => "pvg"
  | RStar_solve _ _ _ _ _ _ _ => "rstar"
  | cot_reflection _ _ _ _ _ => "cot_reflection"
  | plansearch _ _ _ _ _ => "plansearch"
  end.

(** The call with another credential in its client. *)
Definition rekey (key : string) (cl : client) : client :=
  OpenAI key (client_base_url cl).

Definition call_rekey (key : string) (c : call) : call :=
  match c with
  | chat_with_mcts sp iq cl m a b d => chat_with_mcts sp iq (rekey key cl) m a b d
  | best_of_n_sampling sp iq cl m a => best_of_n_sampling sp iq (rekey key cl) m a
  | mixture_of_agents sp iq cl m => mixture_of_agents sp iq (rekey key cl) m
  | round_trip_optimization sp iq cl m => round_trip_optimization sp iq (rekey key cl) m
  | Z3SolverSystem_process_query sp cl m iq =>
      Z3SolverSystem_process_query sp (rekey key cl) m iq
  | advanced_self_consistency_approach sp iq cl m =>
      advanced_self_consistency_approach sp iq (rekey key cl) m
  | inference_time_pv_game sp iq cl m => inference_time_pv_game sp iq (rekey key cl) m
  | RStar_solve sp cl m a b d iq => RStar_solve sp (rekey key cl) m a b d iq
  | cot_reflection sp iq cl m a => cot_reflection sp iq (rekey key cl) m a
  | plansearch sp iq cl m n => plansearch sp iq (rekey key cl) m n
  end.

(** ** The configuration the handler needs *)

(** The keys that lines 51-95 read. *)
Definition config_keys : list string :=
  ["model"; "n"; "approach"; "base_url"; "mcts_simulations"; "mcts_exploration";
   "mcts_depth"; "best_of_n"; "rstar_max_depth"; "rstar_num_rollouts"; "rstar_c";
   "return_full_response"].

Definition configured (s : state) : Prop :=
  Forall (fun key => is_Some (server_config s !! key)) config_keys.

(** A handler step whose result hangs on the configuration alone, not on
    the calls made before. *)
Definition config_only {A : Type} (m : M A) : Prop :=
  ∀ s1 s2, server_config s1 = server_config s2 -> fst (m s1) = fst (m s2).

(** ** Sample states and requests *)

(** The state in which requests are served after [main] ran with the
    default arguments, and after it ran with a given [--approach] and
    [--base_url]. *)
Definition served_auto : state :=
  snd (main default_args (State initial_server_config [])).

Definition served_with (approach base_url : string) : state :=
  snd (main {| args_approach := approach; args_simulations := 2;
               args_exploration := "0.2"; args_depth := 1; args_best_of_n := 3;
               args_model := "gpt-4o-mini"; args_base_url := base_url;
               args_rstar_max_depth := 3; args_rstar_num_rollouts := 5;
               args_rstar_c := "1.4"; args_n := 1;
               args_return_full_response := false |}
            (State initial_server_config [])).

Definition message (role content : string) : value :=
  VDict [("role", VStr role); ("content", VStr content)].

Definition sample_messages : list value :=
  [message "user" "first question"; message "system" "be brief";
   message "assistant" "an answer"; message "system" "be long";
   message "user" "second question"].

Definition sample_payload (model : string) : list (string * value) :=
  [("model", VStr model); ("messages", VList sample_messages)].

(** A strategy that answers once, one that gives three candidates and one
    that fails. *)
(** A constructor that takes every base url and one that takes none. *)
Definition accepting (base_url : scalar) : option string := None.
Definition rejecting (base_url : scalar) : option string :=
  Some "Invalid URL".

Definition answering (c : call) : outcome := Returned (VStr "answer").
Definition sampling (c : call) : outcome := Returned (VList [VStr "a"; VStr "b"; VStr "c"]).
Definition failing (c : call) : outcome := Raised "backend unreachable".

(** * Properties *)

(** ** Stepping through the monad *)

Lemma bind_ok {A B : Type} (m : M A) (k : A -> M B) s a s' :
  m s = (Ok a, s') -> (m ≫= k) s = k a s'.
Proof. intros Hm. unfold mbind, M_bind. now rewrite Hm. Qed.

Lemma bind_raise {A B : Type} (m : M A) (k : A -> M B) s e s' :
  m s = (Raise e, s') -> (m ≫= k) s = (Raise e, s').
Proof. intros Hm. unfold mbind, M_bind. now rewrite Hm. Qed.

Lemma bind_inv {A B : Type} (m : M A) (k : A -> M B) s b s' :
  (m ≫= k) s = (Ok b, s') -> ∃ a s1, m s = (Ok a, s1) ∧ k a s1 = (Ok b, s').
Proof.
  unfold mbind, M_bind. destruct (m s) as [[a|e] s1]; intros Hk.
  - eauto.
  - discriminate.
Qed.

Lemma config_item_ok key s v :
  server_config s !! key = Some v -> config_item key s = (Ok v, s).
Proof. intros Hv. unfold config_item. now rewrite Hv. Qed.

Lemma config_item_inv key s v s' :
  config_item key s = (Ok v, s') -> server_config s !! key = Some v ∧ s' = s.
Proof.
  unfold config_item. destruct (server_config s !! key); intros [= <- <-]; auto.
Qed.

(** ** The generator of lines 54-55 *)

Lemma next_content_step role items rest s r :
  dict_lookup items "role" = Some r ->
  next_content role (VDict items :: rest) s =
  if eq_str r role then subscript (VDict items) "content" s
  else next_content role rest s.
Proof.
  intros Hrole. cbn [next_content].
  erewrite bind_ok; [|unfold subscript; rewrite Hrole; reflexivity].
  now destruct (eq_str r role).
Qed.

Lemma next_content_spec role msgs s :
  forallb is_message msgs = true ->
  next_content role msgs s = (Ok (spec_first_content role msgs), s).
Proof.
  unfold spec_first_content.
  induction msgs as [|msg rest IH]; [reflexivity|].
  cbn [forallb find]. intros [Hmsg Hrest]%andb_prop.
  destruct msg as [a|elems|items]; try discriminate.
  unfold is_message, has_key in Hmsg. apply andb_prop in Hmsg as [Hrole Hcontent].
  destruct (dict_lookup items "role") as [r|] eqn:Er; [|discriminate].
  destruct (dict_lookup items "content") as [c|] eqn:Ec; [|discriminate].
  rewrite (next_content_step _ _ _ _ _ Er). unfold has_role. rewrite Er.
  destruct (eq_str r role).
  - unfold subscript, content_of, dict_get. now rewrite Ec.
  - now apply IH.
Qed.

Lemma spec_first_content_first role pre msg post :
  forallb (fun m => negb (has_role role m)) pre = true ->
  has_role role msg = true ->
  spec_first_content role (pre ++ msg :: post) = content_of msg.
Proof.
  unfold spec_first_content. intros Hpre Hmsg.
  induction pre as [|m pre IH]; simpl in *.
  - now rewrite Hmsg.
  - apply andb_prop in Hpre as [Hm Hpre].
    destruct (has_role role m); [discriminate|]. now apply IH.
Qed.

Lemma spec_first_content_none role msgs :
  forallb (fun m => negb (has_role role m)) msgs = true ->
  spec_first_content role msgs = VStr "".
Proof.
  unfold spec_first_content. intros Hnone.
  induction msgs as [|m msgs IH]; simpl in *; [reflexivity|].
  apply andb_prop in Hnone as [Hm Hnone].
  destruct (has_role role m); [discriminate|]. now apply IH.
Qed.

(** ** Decoding the payload, lines 50-55 *)

Lemma py_iter_messages d s :
  chat_payload d = true ->
  py_iter (dict_get d "messages" (VList [])) s = (Ok (payload_messages d), s) ∧
  forallb is_message (payload_messages d) = true.
Proof.
  unfold chat_payload, payload_messages, dict_get.
  destruct (dict_lookup d "messages") as [[a|msgs|items]|]; simpl; try discriminate; auto.
Qed.

Lemma translate_ok d s dm dn :
  chat_payload d = true ->
  server_config s !! "model" = Some dm ->
  server_config s !! "n" = Some dn ->
  translate (VDict d) s =
  (Ok (ChatRequest (dict_get d "model" (Atom dm)) (dict_get d "n" (Atom dn))
         (spec_first_content "system" (payload_messages d))
         (spec_first_content "user" (payload_messages d))), s).
Proof.
  intros Hd Hm Hn. destruct (py_iter_messages d s Hd) as [Hiter Hmsgs].
  unfold translate. cbn [getattr_get].
  repeat first
    [ erewrite bind_ok; [|first [ reflexivity
                                | apply config_item_ok; eassumption
                                | exact Hiter
                                | apply next_content_spec; exact Hmsgs ]] ].
  reflexivity.
Qed.

(** ** Splitting the model field, line 66 *)

Lemma split_hyphen_first before after :
  contains_hyphen before = false ->
  split_hyphen (before +:+ "-" +:+ after) = Some (before, after).
Proof.
  induction before as [|c before IH]; simpl; [reflexivity|].
  intros [Hc Hbefore]%orb_false_elim. rewrite Hc, (IH Hbefore). reflexivity.
Qed.

Lemma split_hyphen_none s :
  contains_hyphen s = false -> split_hyphen s = None.
Proof.
  induction s as [|c s IH]; simpl; [reflexivity|].
  intros [Hc Hs]%orb_false_elim. now rewrite Hc, (IH Hs).
Qed.

Lemma split_hyphen_some s before after :
  split_hyphen s = Some (before, after) ->
  s = before +:+ "-" +:+ after ∧ contains_hyphen before = false.
Proof.
  revert before. induction s as [|c s IH]; simpl; [discriminate|]. intros before.
  destruct (bool_decide (c = "-"%char)) eqn:Ec.
  - intros [= <- <-]. apply bool_decide_eq_true in Ec as ->. auto.
  - destruct (split_hyphen s) as [[b a]|]; [|discriminate].
    intros [= <- <-]. destruct (IH b eq_refl) as [-> Hb].
    simpl. now rewrite Ec, Hb.
Qed.

(** ** Choosing the client, lines 60-63 *)

Lemma select_client_built API_KEY client_error b s :
  client_is_built client_error b ->
  select_client API_KEY client_error b s = (Ok (client_for API_KEY b), s).
Proof.
  unfold client_is_built, select_client, client_for, new_client. intros Hb.
  case_bool_decide as Hne; [|reflexivity]. now rewrite (Hb Hne).
Qed.

Lemma select_client_rejected API_KEY client_error b msg s :
  b ≠ SStr "" ->
  client_error b = Some msg ->
  select_client API_KEY client_error b s = (Raise (ClientError msg), s).
Proof.
  unfold select_client, new_client. intros Hne Hmsg.
  rewrite bool_decide_eq_true_2 by exact Hne. now rewrite Hmsg.
Qed.

Lemma select_client_cases API_KEY client_error b s :
  (client_is_built client_error b ∧
   select_client API_KEY client_error b s = (Ok (client_for API_KEY b), s)) ∨
  (∃ msg, b ≠ SStr "" ∧ client_error b = Some msg ∧
          select_client API_KEY client_error b s = (Raise (ClientError msg), s)).
Proof.
  destruct (decide (b = SStr "")) as [->|Hne].
  - left. assert (client_is_built client_error (SStr "")) as Hb by (now intros Hne).
    split; [exact Hb|now apply select_client_built].
  - destruct (client_error b) as [msg|] eqn:Hmsg.
    + right. exists msg. split; [exact Hne|]. split; [reflexivity|].
      now apply select_client_rejected.
    + left. assert (client_is_built client_error b) as Hb by (now intros _).
      split; [exact Hb|now apply select_client_built].
Qed.

(** ** Resolving approach and model, lines 57-68 *)

Lemma resolve_fixed API_KEY client_error req s a b :
  server_config s !! "approach" = Some a ->
  a ≠ SStr "auto" ->
  server_config s !! "base_url" = Some b ->
  client_is_built client_error b ->
  resolve API_KEY client_error req s =
  (Ok (Resolved req (client_for API_KEY b) a (req_model req)), s).
Proof.
  intros Ha Hauto Hb Hbuilt. unfold resolve.
  rewrite (bind_ok _ _ _ _ _ (config_item_ok _ _ _ Ha)).
  rewrite (bind_ok _ _ _ _ _ (config_item_ok _ _ _ Hb)).
  rewrite (bind_ok _ _ _ _ _ (select_client_built API_KEY _ _ _ Hbuilt)).
  now rewrite bool_decide_eq_false_2.
Qed.

Lemma resolve_auto API_KEY client_error req s b m before after :
  server_config s !! "approach" = Some (SStr "auto") ->
  server_config s !! "base_url" = Some b ->
  client_is_built client_error b ->
  req_model req = VStr m ->
  split_hyphen m = Some (before, after) ->
  resolve API_KEY client_error req s =
  (Ok (Resolved req (client_for API_KEY b) (SStr before) (VStr after)), s).
Proof.
  intros Ha Hb Hbuilt Hm Hsplit. unfold resolve.
  rewrite (bind_ok _ _ _ _ _ (config_item_ok _ _ _ Ha)).
  rewrite (bind_ok _ _ _ _ _ (config_item_ok _ _ _ Hb)).
  rewrite (bind_ok _ _ _ _ _ (select_client_built API_KEY _ _ _ Hbuilt)).
  rewrite bool_decide_eq_true_2 by reflexivity.
  rewrite Hm. unfold split_model, str_split1. rewrite Hsplit. reflexivity.
Qed.

Lemma resolve_auto_no_hyphen API_KEY client_error req s b m :
  server_config s !! "approach" = Some (SStr "auto") ->
  server_config s !! "base_url" = Some b ->
  client_is_built client_error b ->
  req_model req = VStr m ->
  split_hyphen m = None ->
  resolve API_KEY client_error req s = (Raise (IndexError "list index out of range"), s).
Proof.
  intros Ha Hb Hbuilt Hm Hsplit. unfold resolve.
  rewrite (bind_ok _ _ _ _ _ (config_item_ok _ _ _ Ha)).
  rewrite (bind_ok _ _ _ _ _ (config_item_ok _ _ _ Hb)).
  rewrite (bind_ok _ _ _ _ _ (select_client_built API_KEY _ _ _ Hbuilt)).
  rewrite bool_decide_eq_true_2 by reflexivity.
  rewrite Hm. unfold split_model, str_split1. rewrite Hsplit. reflexivity.
Qed.

Lemma resolve_rejected API_KEY client_error req s a b msg :
  server_config s !! "approach" = Some a ->
  server_config s !! "base_url" = Some b ->
  b ≠ SStr "" ->
  client_error b = Some msg ->
  resolve API_KEY client_error req s = (Raise (ClientError msg), s).
Proof.
  intros Ha Hb Hne Hmsg. unfold resolve.
  rewrite (bind_ok _ _ _ _ _ (config_item_ok _ _ _ Ha)).
  rewrite (bind_ok _ _ _ _ _ (config_item_ok _ _ _ Hb)).
  apply bind_raise. now apply select_client_rejected.
Qed.

Lemma resolution_fixed API_KEY client_error d s dm dn a b :
  chat_payload d = true ->
  server_config s !! "model" = Some dm ->
  server_config s !! "n" = Some dn ->
  server_config s !! "approach" = Some a ->
  a ≠ SStr "auto" ->
  server_config s !! "base_url" = Some b ->
  client_is_built client_error b ->
  ∃ req, translate (VDict d) s = (Ok req, s) ∧
         req_model req = dict_get d "model" (Atom dm) ∧
         resolution API_KEY client_error (VDict d) s =
         (Ok (Resolved req (client_for API_KEY b) a (req_model req)), s).
Proof.
  intros Hd Hm Hn Ha Hauto Hb Hbuilt. eexists. split; [eapply translate_ok; eassumption|].
  split; [reflexivity|]. unfold resolution.
  erewrite bind_ok by (eapply translate_ok; eassumption).
  now apply resolve_fixed.
Qed.

(** C5.  For a payload of the data model, the system prompt that lines
    50-55 extract is the content of the first message whose role is
    "system" and the user query the content of the first message whose
    role is "user", each the empty string if there is no such message; a
    payload without the key "messages" gives the empty string for both. *)
Theorem first_system_and_first_user_message d s dm dn :
  chat_payload d = true ->
  server_config s !! "model" = Some dm ->
  server_config s !! "n" = Some dn ->
  ∃ req, translate (VDict d) s = (Ok req, s) ∧
         req_system_prompt req = spec_first_content "system" (payload_messages d) ∧
         req_initial_query req = spec_first_content "user" (payload_messages d) ∧
         (dict_lookup d "messages" = None ->
          req_system_prompt req = VStr "" ∧ req_initial_query req = VStr "").
Proof.
  intros Hd Hm Hn. eexists. split; [eapply translate_ok; eassumption|]. cbn.
  repeat split; unfold payload_messages; now rewrite H.
Qed.

Lemma first_system_and_first_user_message_witness :
  ∃ req, translate (VDict (sample_payload "gpt-4o-mini")) (served_with "bon" "") =
           (Ok req, served_with "bon" "") ∧
         req_system_prompt req = VStr "be brief" ∧
         req_initial_query req = VStr "first question".
Proof.
  destruct (first_system_and_first_user_message (sample_payload "gpt-4o-mini")
              (served_with "bon" "") (SStr "gpt-4o-mini") (SInt 1))
    as (req & Hreq & Hsystem & Huser & _); [reflexivity..|].
  exists req. repeat split; [exact Hreq|now rewrite Hsystem|now rewrite Huser].
Defined.

(** C3.  In auto mode the model str of the request is split at its first
    hyphen only: the approach is what stands before it and the model all
    that stands after it, further hyphens included.  Lines 65-68 are
    reached when line 61 has not raised, that is, when the base url is
    empty or the constructor of the client takes it. *)
Theorem auto_splits_at_first_hyphen API_KEY client_error d s dm dn b before after :
  chat_payload d = true ->
  server_config s !! "model" = Some dm ->
  server_config s !! "n" = Some dn ->
  server_config s !! "approach" = Some (SStr "auto") ->
  server_config s !! "base_url" = Some b ->
  client_is_built client_error b ->
  dict_get d "model" (Atom dm) = VStr (before +:+ "-" +:+ after) ->
  contains_hyphen before = false ->
  ∃ r, resolution API_KEY client_error (VDict d) s = (Ok r, s) ∧
       r_approach r = SStr before ∧ r_model r = VStr after.
Proof.
  intros Hd Hm Hn Ha Hb Hbuilt Hmodel Hbefore.
  exists (Resolved (ChatRequest (dict_get d "model" (Atom dm)) (dict_get d "n" (Atom dn))
                      (spec_first_content "system" (payload_messages d))
                      (spec_first_content "user" (payload_messages d)))
            (client_for API_KEY b) (SStr before) (VStr after)).
  split; [|split; reflexivity].
  unfold resolution. erewrite bind_ok by (eapply translate_ok; eassumption).
  eapply resolve_auto; eauto using split_hyphen_first.
Qed.

Lemma auto_splits_at_first_hyphen_witness :
  ∃ r, resolution "sk-test" accepting (VDict (sample_payload "mcts-gpt-4o-mini")) served_auto =
         (Ok r, served_auto) ∧
       r_approach r = SStr "mcts" ∧ r_model r = VStr "gpt-4o-mini".
Proof.
  apply (auto_splits_at_first_hyphen "sk-test" accepting (sample_payload "mcts-gpt-4o-mini")
           served_auto (SStr "gpt-4o-mini") (SInt 1) (SStr "") "mcts" "gpt-4o-mini");
    first [reflexivity | intros _; reflexivity].
Defined.

(** C4.  When the configured approach is not "auto", the resolved approach
    is the configured one and the resolved model is the model of the
    request as it was sent, or the configured default model if the request
    has none.  The resolution completes when line 61 has not raised, that
    is, when the base url is empty or the constructor of the client takes
    it. *)
Theorem fixed_approach_keeps_model API_KEY client_error d s dm dn a b :
  chat_payload d = true ->
  server_config s !! "model" = Some dm ->
  server_config s !! "n" = Some dn ->
  server_config s !! "approach" = Some a ->
  a ≠ SStr "auto" ->
  server_config s !! "base_url" = Some b ->
  client_is_built client_error b ->
  ∃ r, resolution API_KEY client_error (VDict d) s = (Ok r, s) ∧
       r_approach r = a ∧
       (∀ m, dict_lookup d "model" = Some m -> r_model r = m) ∧
       (dict_lookup d "model" = None -> r_model r = Atom dm).
Proof.
  intros Hd Hm Hn Ha Hauto Hb Hbuilt.
  destruct (resolution_fixed API_KEY client_error d s dm dn a b)
    as (req & _ & Hmodel & Hr); auto.
  eexists. split; [exact Hr|]. cbn. rewrite Hmodel. unfold dict_get.
  repeat split; intros; now rewrite H.
Qed.

Lemma fixed_approach_keeps_model_witness :
  ∃ r, resolution "sk-test" accepting (VDict (sample_payload "mcts-gpt-4o-mini"))
         (served_with "bon" "") = (Ok r, served_with "bon" "") ∧
       r_approach r = SStr "bon" ∧ r_model r = VStr "mcts-gpt-4o-mini".
Proof.
  destruct (fixed_approach_keeps_model "sk-test" accepting (sample_payload "mcts-gpt-4o-mini")
              (served_with "bon" "") (SStr "gpt-4o-mini") (SInt 1) (SStr "bon") (SStr ""))
    as (r & Hr & Happroach & Hmodel & _);
    [reflexivity..|discriminate|reflexivity|intros _; reflexivity|].
  exists r. repeat split; [exact Hr|exact Happroach|now apply Hmodel].
Defined.

(** C2, as the handler has it.  In auto mode a model str without a hyphen
    never gets a response: an exception leaves the handler, at every base
    url.  It is the [IndexError] of line 68, which is not inside the [try]
    block, whenever line 61 has not raised before (the base url is empty
    or the constructor of the client takes it). *)
Theorem auto_without_hyphen_escapes API_KEY client_error run d s dm dn b m :
  chat_payload d = true ->
  server_config s !! "model" = Some dm ->
  server_config s !! "n" = Some dn ->
  server_config s !! "approach" = Some (SStr "auto") ->
  server_config s !! "base_url" = Some b ->
  dict_get d "model" (Atom dm) = VStr m ->
  contains_hyphen m = false ->
  ∃ e, proxy API_KEY client_error run (VDict d) s = (Raise e, s) ∧
       (client_is_built client_error b -> e = IndexError "list index out of range").
Proof.
  intros Hd Hm Hn Ha Hb Hmodel Hhyphen. unfold proxy, resolution.
  destruct (select_client_cases API_KEY client_error b s)
    as [[Hbuilt _]|(msg & Hne & Hmsg & _)].
  - exists (IndexError "list index out of range"). split; [|reflexivity].
    apply bind_raise. erewrite bind_ok by (eapply translate_ok; eassumption).
    eapply resolve_auto_no_hyphen; eauto using split_hyphen_none.
  - exists (ClientError msg). split.
    + apply bind_raise. erewrite bind_ok by (eapply translate_ok; eassumption).
      eapply resolve_rejected; eauto.
    + intros Hbuilt. rewrite (Hbuilt Hne) in Hmsg. discriminate.
Qed.

Lemma auto_without_hyphen_escapes_witness :
  proxy "sk-test" accepting answering (VDict (sample_payload "gpt4")) served_auto =
  (Raise (IndexError "list index out of range"), served_auto).
Proof.
  destruct (auto_without_hyphen_escapes "sk-test" accepting answering (sample_payload "gpt4")
              served_auto (SStr "gpt-4o-mini") (SInt 1) (SStr "") "gpt4")
    as (e & Hp & He); [reflexivity..|].
  rewrite Hp. now rewrite He by (intros _; reflexivity).
Defined.

(** ** Assembling the response, lines 104-127 *)

Lemma fold_left_append_choice (l : list (Z * value)) (acc : list value) :
  fold_left append_choice l acc = (acc ++ map (fun ir => choice (fst ir) (snd ir)) l)%list.
Proof.
  revert acc. induction l as [|ir l IH]; intros acc; simpl.
  - now rewrite app_nil_r.
  - rewrite IH. unfold append_choice. now rewrite <- app_assoc.
Qed.

Lemma enumerate_lookup l : ∀ start i,
  enumerate start l !! i = (fun x => (start + Z.of_nat i, x)) <$> l !! i.
Proof.
  induction l as [|x l IH]; intros start [|i]; simpl; try reflexivity.
  - now rewrite Z.add_0_r.
  - rewrite IH. destruct (l !! i); simpl; [|reflexivity].
    do 2 f_equal. lia.
Qed.

Lemma length_enumerate l : ∀ start, length (enumerate start l) = length l.
Proof. induction l as [|x l IH]; intros start; simpl; [reflexivity|now rewrite IH]. Qed.

Lemma choices_of_list_lookup l i :
  choices_of (VList l) !! i = choice (Z.of_nat i) <$> l !! i.
Proof.
  unfold choices_of. rewrite fold_left_append_choice, app_nil_l.
  rewrite list_lookup_fmap, enumerate_lookup.
  now destruct (l !! i).
Qed.

Lemma length_choices_of_list l : length (choices_of (VList l)) = length l.
Proof.
  unfold choices_of. rewrite fold_left_append_choice, app_nil_l.
  now rewrite length_map, length_enumerate.
Qed.

Lemma choices_of_single v :
  (∀ l, v ≠ VList l) -> choices_of v = [choice 0 v].
Proof.
  intros Hv. destruct v as [a|l|items]; try reflexivity. now destruct (Hv l).
Qed.

Lemma choices_of_are_choices v :
  Forall (fun c => ∃ index content, c = choice index content) (choices_of v).
Proof.
  destruct v as [a|l|items]; try (repeat constructor; eauto).
  unfold choices_of. rewrite fold_left_append_choice, app_nil_l.
  apply Forall_fmap, Forall_forall. intros [i x] _. simpl. eauto.
Qed.

(** C6.  The response assembled from a strategy's result has, for a single
    str, exactly one choice, of index 0 and with that str as content; for
    a list, one choice per element, the i-th (from 0) of index i and with
    the i-th element as content; and every choice has the finish reason
    "stop" and the message role "assistant". *)
Theorem choices_follow_the_result model :
  (∀ s, response_data model (VStr s) =
        VDict [("model", model); ("choices", VList [choice 0 (VStr s)])]) ∧
  (∀ l, ∃ choices,
        response_data model (VList l) =
        VDict [("model", model); ("choices", VList choices)] ∧
        length choices = length l ∧
        ∀ i, choices !! i = choice (Z.of_nat i) <$> l !! i) ∧
  (∀ index content,
        field (choice index content) "index" = Some (VInt index) ∧
        field (choice index content) "finish_reason" = Some (VStr "stop") ∧
        field (choice index content) "message" =
        Some (VDict [("role", VStr "assistant"); ("content", content)])) ∧
  (∀ v, Forall (fun c => ∃ index content, c = choice index content) (choices_of v)).
Proof.
  split; [reflexivity|]. split; [|split].
  - intros l. exists (choices_of (VList l)). split; [reflexivity|].
    split; [apply length_choices_of_list|apply choices_of_list_lookup].
  - intros index content. repeat split.
  - apply choices_of_are_choices.
Qed.

(** ** Steps that only read *)

Lemma pure_ret {A : Type} (a : A) : pure_step (mret a : M A).
Proof. intros s. reflexivity. Qed.

Lemma pure_raise {A : Type} (e : exn) : pure_step (raise e : M A).
Proof. intros s. reflexivity. Qed.

Lemma pure_bind {A B : Type} (m : M A) (k : A -> M B) :
  pure_step m -> (∀ a, pure_step (k a)) -> pure_step (m ≫= k).
Proof.
  intros Hm Hk s. unfold mbind, M_bind.
  specialize (Hm s). destruct (m s) as [[a|e] s1]; simpl in Hm; subst s1.
  - apply Hk.
  - reflexivity.
Qed.

Lemma pure_config_item key : pure_step (config_item key).
Proof. intros s. unfold config_item. now destruct (server_config s !! key). Qed.

Ltac pure_steps :=
  repeat first
    [ progress intros
    | apply pure_ret
    | apply pure_raise
    | apply pure_config_item
    | apply pure_bind
    | progress cbv zeta
    | match goal with
      | |- pure_step (if ?b then _ else _) => destruct b
      | |- pure_step (match ?x with _ => _ end) => destruct x
      end ].

Lemma pure_getattr_get obj : pure_step (getattr_get obj).
Proof. unfold getattr_get. pure_steps. Qed.

Lemma pure_py_iter obj : pure_step (py_iter obj).
Proof. unfold py_iter. pure_steps. Qed.

Lemma pure_subscript obj key : pure_step (subscript obj key).
Proof. unfold subscript. pure_steps. Qed.

Lemma pure_next_content role msgs : pure_step (next_content role msgs).
Proof.
  induction msgs as [|msg rest IH]; cbn [next_content].
  - apply pure_ret.
  - apply pure_bind; [apply pure_subscript|].
    intros r. destruct (eq_str r role); [apply pure_subscript|exact IH].
Qed.

Lemma pure_split_model model : pure_step (split_model model).
Proof. unfold split_model. pure_steps. Qed.

Lemma pure_list_item parts i : pure_step (list_item parts i).
Proof. unfold list_item. pure_steps. Qed.

Lemma pure_translate data : pure_step (translate data).
Proof.
  unfold translate.
  repeat first [ apply pure_getattr_get | apply pure_py_iter | apply pure_next_content
               | apply pure_config_item | apply pure_ret | apply pure_bind; [|intros ?] ].
Qed.

Lemma pure_select_client API_KEY client_error b :
  pure_step (select_client API_KEY client_error b).
Proof. unfold select_client, new_client. pure_steps. Qed.

Lemma pure_resolve API_KEY client_error req : pure_step (resolve API_KEY client_error req).
Proof.
  unfold resolve.
  repeat first [ apply pure_split_model | apply pure_list_item | apply pure_select_client
               | apply pure_config_item | apply pure_ret | apply pure_bind; [|intros ?]
               | progress cbv zeta
               | match goal with |- pure_step (if ?b then _ else _) => destruct b end ].
Qed.

Lemma pure_resolution API_KEY client_error data : pure_step (resolution API_KEY client_error data).
Proof.
  unfold resolution. apply pure_bind; [apply pure_translate|].
  intros req. apply pure_resolve.
Qed.

Lemma resolution_state API_KEY client_error data s res s' :
  resolution API_KEY client_error data s = (res, s') -> s' = s.
Proof. intros H. pose proof (pure_resolution API_KEY client_error data s) as Hs. now rewrite H in Hs. Qed.

(** ** Steps that leave the configuration alone *)

Lemma keeps_pure {A : Type} (m : M A) : pure_step m -> keeps_config m.
Proof. intros Hm s. now rewrite Hm. Qed.

Lemma keeps_bind {A B : Type} (m : M A) (k : A -> M B) :
  keeps_config m -> (∀ a, keeps_config (k a)) -> keeps_config (m ≫= k).
Proof.
  intros Hm Hk s. unfold mbind, M_bind.
  specialize (Hm s). destruct (m s) as [[a|e] s1]; simpl in Hm.
  - now rewrite Hk.
  - exact Hm.
Qed.

Lemma keeps_try_except {A : Type} (body : M A) (handler : exn -> M A) :
  keeps_config body -> (∀ e, keeps_config (handler e)) ->
  keeps_config (try_except body handler).
Proof.
  intros Hb Hh s. unfold try_except.
  specialize (Hb s). destruct (body s) as [[a|e] s1]; simpl in Hb.
  - exact Hb.
  - now rewrite Hh.
Qed.

Lemma keeps_invoke run c : keeps_config (invoke run c).
Proof. intros s. unfold invoke. now destruct (run c). Qed.

Lemma keeps_dispatch run approach system_prompt initial_query cl model n :
  keeps_config (dispatch run approach system_prompt initial_query cl model n).
Proof.
  unfold dispatch.
  repeat first [ apply keeps_invoke
               | apply keeps_pure, pure_config_item
               | apply keeps_pure, pure_raise
               | apply keeps_bind; [|intros ?]
               | match goal with |- keeps_config (if ?b then _ else _) => destruct b end ].
Qed.

Lemma keeps_respond run r : keeps_config (respond run r).
Proof.
  unfold respond. apply keeps_bind.
  - apply keeps_try_except.
    + apply keeps_bind; [apply keeps_dispatch|]. intros v. apply keeps_pure, pure_ret.
    + intros e. apply keeps_pure, pure_ret.
  - intros [v|resp]; apply keeps_pure, pure_ret.
Qed.

Lemma keeps_proxy API_KEY client_error run data : keeps_config (proxy API_KEY client_error run data).
Proof.
  unfold proxy. apply keeps_bind.
  - apply keeps_pure, pure_resolution.
  - intros r. apply keeps_respond.
Qed.

(** C8.  Handling a request leaves the configuration as it was, whatever
    the request and whether the handler returns a response or raises; the
    write to the configuration is the one [main] makes before serving. *)
Theorem request_keeps_configuration :
  (∀ API_KEY client_error run data s,
     server_config (snd (proxy API_KEY client_error run data s)) = server_config s) ∧
  (∀ args s,
     server_config (snd (main args s)) = config_of_args args ∪ server_config s).
Proof.
  split.
  - intros API_KEY client_error run data s. apply keeps_proxy.
  - reflexivity.
Qed.

(** ** The [try] block and what follows it, lines 72-130 *)

Lemma dispatch_unregistered run a system_prompt initial_query cl model n s :
  registered a = false ->
  dispatch run a system_prompt initial_query cl model n s =
  (Raise (ValueError ("Unknown approach: " +:+ py_str a)), s).
Proof.
  unfold registered, approaches. cbn [existsb]. intros Ha.
  repeat (apply orb_false_elim in Ha as [? Ha]).
  unfold dispatch. repeat match goal with H : bool_decide _ = false |- _ => rewrite H; clear H end.
  reflexivity.
Qed.

Lemma respond_returned run r s v s1 :
  dispatch run (r_approach r) (req_system_prompt (r_request r))
    (req_initial_query (r_request r)) (r_client r) (r_model r) (req_n (r_request r)) s =
  (Ok v, s1) ->
  respond run r s = (Ok (Response (response_data (r_model r) v) 200), s1).
Proof.
  intros Hd. unfold respond, try_except. unfold mbind at 1, M_bind at 1.
  erewrite bind_ok by exact Hd. reflexivity.
Qed.

Lemma respond_raised run r s e s1 :
  dispatch run (r_approach r) (req_system_prompt (r_request r))
    (req_initial_query (r_request r)) (r_client r) (r_model r) (req_n (r_request r)) s =
  (Raise e, s1) ->
  respond run r s = (Ok (Response (error_data e) 500), s1).
Proof.
  intros Hd. unfold respond, try_except. unfold mbind at 1, M_bind at 1.
  erewrite bind_raise by exact Hd. reflexivity.
Qed.


(** C7.  When the resolved approach is none of the registered names, no
    strategy is called and the response has the status 500 and the body
    [{"error": "Unknown approach: <name>"}], with the resolved approach as
    the name. *)
Theorem unknown_approach_is_reported API_KEY client_error run data s r s' :
  resolution API_KEY client_error data s = (Ok r, s') ->
  registered (r_approach r) = false ->
  proxy API_KEY client_error run data s =
  (Ok (Response (VDict [("error", VStr ("Unknown approach: " +:+ py_str (r_approach r)))])
         500), s) ∧
  invoked (snd (proxy API_KEY client_error run data s)) = invoked s.
Proof.
  intros Hr Hunknown.
  assert (proxy API_KEY client_error run data s =
          (Ok (Response (VDict [("error",
                 VStr ("Unknown approach: " +:+ py_str (r_approach r)))]) 500), s)) as Hp.
  { pose proof (resolution_state _ _ _ _ _ _ Hr) as ->.
    unfold proxy. erewrite bind_ok by exact Hr.
    now erewrite respond_raised by now apply dispatch_unregistered. }
  split; [exact Hp|now rewrite Hp].
Qed.

Lemma unknown_approach_is_reported_witness :
  proxy "sk-test" accepting answering (VDict (sample_payload "gpt-4o-mini")) (served_with "beam" "") =
  (Ok (Response (VDict [("error", VStr "Unknown approach: beam")]) 500),
   served_with "beam" "") ∧
  invoked (snd (proxy "sk-test" accepting answering (VDict (sample_payload "gpt-4o-mini"))
                  (served_with "beam" ""))) = [].
Proof.
  apply (unknown_approach_is_reported "sk-test" accepting answering
           (VDict (sample_payload "gpt-4o-mini")) (served_with "beam" "")
           (Resolved (ChatRequest (VStr "gpt-4o-mini") (VInt 1) (VStr "be brief")
                        (VStr "first question"))
              (OpenAI "sk-test" None) (SStr "beam") (VStr "gpt-4o-mini"))
           (served_with "beam" "")); reflexivity.
Defined.




(** ** What a resolution that succeeded went through *)

Lemma pure_inv {A : Type} (m : M A) s res s' :
  pure_step m -> m s = (res, s') -> s' = s.
Proof. intros Hm H. specialize (Hm s). now rewrite H in Hm. Qed.

Lemma translate_inv data s req s' :
  translate data s = (Ok req, s') ->
  ∃ d dm, data = VDict d ∧ server_config s !! "model" = Some dm ∧
          req_model req = dict_get d "model" (Atom dm).
Proof.
  destruct data as [a|elems|d]; try discriminate.
  unfold translate. cbn [getattr_get]. intros H.
  apply bind_inv in H as (g1 & s1 & [= <- <-] & H).
  apply bind_inv in H as (g2 & s2 & [= <- <-] & H).
  apply bind_inv in H as (dm & s3 & [Hdm ->]%config_item_inv & H).
  apply bind_inv in H as (g3 & s4 & [= <- <-] & H).
  apply bind_inv in H as (dn & s5 & [Hdn ->]%config_item_inv & H).
  apply bind_inv in H as (msgs1 & s6 & _ & H).
  apply bind_inv in H as (system_prompt & s7 & _ & H).
  apply bind_inv in H as (msgs2 & s8 & _ & H).
  apply bind_inv in H as (initial_query & s9 & _ & H).
  injection H as <- _. eauto.
Qed.

Lemma select_client_inv API_KEY client_error b s cl s' :
  select_client API_KEY client_error b s = (Ok cl, s') ->
  cl = client_for API_KEY b ∧ s' = s ∧ client_is_built client_error b.
Proof.
  destruct (select_client_cases API_KEY client_error b s)
    as [[Hbuilt ->]|(msg & _ & _ & ->)]; [|discriminate].
  intros [= <- <-]. auto.
Qed.

Lemma resolve_inv API_KEY client_error req s r s' :
  resolve API_KEY client_error req s = (Ok r, s') ->
  ∃ a b, server_config s !! "approach" = Some a ∧
         server_config s !! "base_url" = Some b ∧
         r_request r = req ∧
         r_client r = client_for API_KEY b ∧
         ((a = SStr "auto" ∧ ∃ m before after,
             req_model req = VStr m ∧ split_hyphen m = Some (before, after) ∧
             r_approach r = SStr before ∧ r_model r = VStr after) ∨
          (a ≠ SStr "auto" ∧ r_approach r = a ∧ r_model r = req_model req)).
Proof.
  unfold resolve. intros H.
  apply bind_inv in H as (a & s1 & [Ha ->]%config_item_inv & H).
  apply bind_inv in H as (b & s2 & [Hb ->]%config_item_inv & H).
  apply bind_inv in H as (cl & s0 & (-> & -> & _)%select_client_inv & H).
  exists a, b. do 2 (split; [assumption|]).
  case_bool_decide as Hauto.
  - apply bind_inv in H as (parts & s3 & Hparts & H).
    apply bind_inv in H as (before & s4 & Hbefore & H).
    apply bind_inv in H as (after & s5 & Hafter & H).
    injection H as <- _. do 2 (split; [reflexivity|]). left. split; [assumption|].
    destruct (req_model req) as [[| | | |m]| |]; try discriminate.
    injection Hparts as <- _. unfold str_split1, list_item in *.
    destruct (split_hyphen m) as [[b' a']|] eqn:Hsplit; [|discriminate].
    injection Hbefore as <- _. injection Hafter as <- _.
    exists m, b', a'. auto.
  - injection H as <- _. do 2 (split; [reflexivity|]). right. auto.
Qed.

Lemma resolution_inv API_KEY client_error data s r s' :
  resolution API_KEY client_error data s = (Ok r, s') ->
  ∃ d dm a b,
    data = VDict d ∧
    server_config s !! "model" = Some dm ∧
    server_config s !! "approach" = Some a ∧
    server_config s !! "base_url" = Some b ∧
    r_client r = client_for API_KEY b ∧
    ((a = SStr "auto" ∧ ∃ m before after,
        dict_get d "model" (Atom dm) = VStr m ∧ split_hyphen m = Some (before, after) ∧
        r_approach r = SStr before ∧ r_model r = VStr after) ∨
     (a ≠ SStr "auto" ∧ r_approach r = a ∧ r_model r = dict_get d "model" (Atom dm))).
Proof.
  unfold resolution. intros H.
  apply bind_inv in H as (req & s1 & Hreq & H).
  pose proof (pure_inv _ _ _ _ (pure_translate data) Hreq) as ->.
  apply translate_inv in Hreq as (d & dm & -> & Hdm & Hmodel).
  apply resolve_inv in H as (a & b & Ha & Hb & _ & Hcl & Hres).
  exists d, dm, a, b. rewrite <- Hmodel. auto 10.
Qed.

(** ** The calls the dispatch makes *)

Lemma dispatch_invoked run a system_prompt initial_query cl model n s :
  invoked (snd (dispatch run a system_prompt initial_query cl model n s)) = invoked s ∨
  ∃ c, invoked (snd (dispatch run a system_prompt initial_query cl model n s)) =
       (invoked s ++ [c])%list ∧
       call_client c = cl ∧ call_model c = model.
Proof.
  unfold dispatch.
  repeat case_bool_decide;
    unfold mbind, M_bind, config_item, invoke, raise;
    repeat match goal with
           | |- context [server_config s !! ?key] => destruct (server_config s !! key)
           end;
    try (left; reflexivity);
    match goal with
    | |- context [run ?c] => right; exists c; destruct (run c); auto
    end.
Qed.

Lemma respond_state run r s :
  snd (respond run r s) =
  snd (dispatch run (r_approach r) (req_system_prompt (r_request r))
         (req_initial_query (r_request r)) (r_client r) (r_model r) (req_n (r_request r)) s).
Proof.
  destruct (dispatch run (r_approach r) (req_system_prompt (r_request r))
              (req_initial_query (r_request r)) (r_client r) (r_model r)
              (req_n (r_request r)) s) as [[v|e] s1] eqn:Hd.
  - now rewrite (respond_returned _ _ _ _ _ Hd).
  - now rewrite (respond_raised _ _ _ _ _ Hd).
Qed.

Lemma not_own_extension {A : Type} (l : list A) (x : A) : l ≠ (l ++ [x])%list.
Proof. intros H. apply (f_equal length) in H. rewrite length_app in H. simpl in H. lia. Qed.

Lemma resolution_built API_KEY client_error data s r s' b :
  resolution API_KEY client_error data s = (Ok r, s') ->
  server_config s !! "base_url" = Some b ->
  client_is_built client_error b.
Proof.
  unfold resolution, resolve. intros H Hb.
  apply bind_inv in H as (req & s1 & Hreq & H).
  pose proof (pure_inv _ _ _ _ (pure_translate data) Hreq) as ->.
  apply bind_inv in H as (a & s2 & [Ha ->]%config_item_inv & H).
  apply bind_inv in H as (b' & s3 & [Hb' ->]%config_item_inv & H).
  apply bind_inv in H as (cl & s0 & (_ & _ & Hbuilt)%select_client_inv & _).
  rewrite Hb in Hb'. now injection Hb' as <-.
Qed.

(** C9.  The strategy a request calls is handed the client the
    configuration selects: one bound to the credential and the configured
    base url if that is not empty (the constructor of line 61 then having
    taken it), and the default client, bound to the credential alone,
    otherwise. *)
Theorem strategy_gets_the_configured_client API_KEY client_error run data s b c :
  server_config s !! "base_url" = Some b ->
  invoked (snd (proxy API_KEY client_error run data s)) = (invoked s ++ [c])%list ->
  (b ≠ SStr "" -> call_client c = OpenAI API_KEY (Some b) ∧ client_error b = None) ∧
  (b = SStr "" -> call_client c = OpenAI API_KEY None).
Proof.
  intros Hb Hc. unfold proxy in Hc.
  destruct (resolution API_KEY client_error data s) as [[r|e] s1] eqn:Hr.
  - pose proof (resolution_state _ _ _ _ _ _ Hr) as ->.
    erewrite bind_ok in Hc by exact Hr. rewrite respond_state in Hc.
    pose proof (resolution_built _ _ _ _ _ _ _ Hr Hb) as Hbuilt.
    apply resolution_inv in Hr as (d & dm & a & b' & _ & _ & _ & Hb' & Hcl & _).
    assert (b' = b) as -> by congruence.
    destruct (dispatch_invoked run (r_approach r) (req_system_prompt (r_request r))
                (req_initial_query (r_request r)) (r_client r) (r_model r)
                (req_n (r_request r)) s) as [Hnone|(c' & Hone & Hclient & _)].
    + rewrite Hnone in Hc. now apply not_own_extension in Hc.
    + rewrite Hone in Hc. apply app_inj_tail in Hc as [_ ->].
      rewrite Hclient, Hcl. unfold client_for, default_client.
      split; intros Hcase.
      * rewrite bool_decide_eq_true_2 by exact Hcase. split; [reflexivity|now apply Hbuilt].
      * now rewrite bool_decide_eq_false_2 by (intros Hne; now apply Hne).
  - pose proof (resolution_state _ _ _ _ _ _ Hr) as ->.
    erewrite bind_raise in Hc by exact Hr. simpl in Hc.
    now apply not_own_extension in Hc.
Qed.

Lemma strategy_gets_the_configured_client_witness :
  (∃ c, invoked (snd (proxy "sk-test" accepting answering
                        (VDict (sample_payload "gpt-4o-mini"))
                        (served_with "bon" "http://localhost:8080/v1"))) = [c] ∧
        call_client c = OpenAI "sk-test" (Some (SStr "http://localhost:8080/v1"))) ∧
  (∃ c, invoked (snd (proxy "sk-test" accepting answering
                        (VDict (sample_payload "gpt-4o-mini"))
                        (served_with "bon" ""))) = [c] ∧
        call_client c = OpenAI "sk-test" None).
Proof.
  split.
  - eexists. split; [reflexivity|].
    apply (strategy_gets_the_configured_client "sk-test" accepting answering
             (VDict (sample_payload "gpt-4o-mini"))
             (served_with "bon" "http://localhost:8080/v1")
             (SStr "http://localhost:8080/v1")); [reflexivity|reflexivity|discriminate].
  - eexists. split; [reflexivity|].
    apply (strategy_gets_the_configured_client "sk-test" accepting answering
             (VDict (sample_payload "gpt-4o-mini")) (served_with "bon" "")
             (SStr "")); reflexivity.
Defined.

(** C10.  The model of a successful response is the resolved model: in
    auto mode what stands after the first hyphen of the request's model,
    and otherwise the request's model as it was sent (or the configured
    default if the request has none). *)
Theorem response_model_is_the_resolved_model API_KEY client_error run d s resp s' a dm :
  proxy API_KEY client_error run (VDict d) s = (Ok resp, s') ->
  status resp = 200 ->
  server_config s !! "approach" = Some a ->
  server_config s !! "model" = Some dm ->
  (a = SStr "auto" ->
   ∃ before after,
     dict_get d "model" (Atom dm) = VStr (before +:+ "-" +:+ after) ∧
     contains_hyphen before = false ∧
     body_field resp "model" = Some (VStr after)) ∧
  (a ≠ SStr "auto" ->
   body_field resp "model" = Some (dict_get d "model" (Atom dm))).
Proof.
  intros Hp Hstatus Ha Hdm. unfold proxy in Hp.
  apply bind_inv in Hp as (r & s1 & Hr & Hp).
  assert (body_field resp "model" = Some (r_model r)) as Hfield.
  { destruct (dispatch run (r_approach r) (req_system_prompt (r_request r))
                (req_initial_query (r_request r)) (r_client r) (r_model r)
                (req_n (r_request r)) s1) as [[v|e] s2] eqn:Hd.
    - rewrite (respond_returned _ _ _ _ _ Hd) in Hp. now injection Hp as <- _.
    - rewrite (respond_raised _ _ _ _ _ Hd) in Hp. injection Hp as <- _. discriminate. }
  apply resolution_inv in Hr as (d' & dm' & a' & b & [= <-] & Hdm' & Ha' & _ & _ & Hres).
  assert (dm' = dm) as -> by congruence. assert (a' = a) as -> by congruence.
  rewrite Hfield.
  destruct Hres as [(Hauto & m & before & after & Hm & Hsplit & _ & ->)|(Hauto & _ & ->)].
  - split; [|now intros Hne]. intros _.
    apply split_hyphen_some in Hsplit as [-> Hbefore]. eauto.
  - split; [now intros Heq|]. reflexivity.
Qed.

Lemma response_model_is_the_resolved_model_witness :
  ∃ resp s',
    proxy "sk-test" accepting answering (VDict (sample_payload "mcts-gpt-4o-mini")) served_auto =
    (Ok resp, s') ∧
    dict_get (sample_payload "mcts-gpt-4o-mini") "model" (VStr "gpt-4o-mini") =
    VStr "mcts-gpt-4o-mini" ∧
    body_field resp "model" = Some (VStr "gpt-4o-mini").
Proof.
  do 2 eexists. split; [reflexivity|]. split; [reflexivity|].
  destruct (response_model_is_the_resolved_model "sk-test" accepting answering
              (sample_payload "mcts-gpt-4o-mini") served_auto _ _ (SStr "auto")
              (SStr "gpt-4o-mini") eq_refl eq_refl eq_refl eq_refl) as [Hauto _].
  destruct (Hauto eq_refl) as (before & after & Hmodel & Hbefore & Hfield).
  pose proof (split_hyphen_first before after Hbefore) as Hsplit.
  injection Hmodel as Hmodel. rewrite <- Hmodel in Hsplit.
  injection Hsplit as _ <-. exact Hfield.
Defined.

(** ** Worked requests *)

(** A strategy that gives three candidates: three choices, in order. *)
Example three_candidates_give_three_choices :
  proxy "sk-test" accepting sampling (VDict (sample_payload "gpt-4o-mini")) (served_with "bon" "") =
  (Ok (Response
         (VDict [("model", VStr "gpt-4o-mini");
                 ("choices", VList [choice 0 (VStr "a"); choice 1 (VStr "b");
                                    choice 2 (VStr "c")])])
         200),
   State (server_config (served_with "bon" ""))
     [best_of_n_sampling (VStr "be brief") (VStr "first question")
        (default_client "sk-test") (VStr "gpt-4o-mini") (SInt 3)]).
Proof. reflexivity. Qed.

(** In auto mode a prefix that names no approach is raised inside the
    [try] block and reported, unlike a model without a hyphen. *)
Example auto_unknown_prefix_is_reported :
  proxy "sk-test" accepting answering (VDict (sample_payload "beam-gpt4")) served_auto =
  (Ok (Response (VDict [("error", VStr "Unknown approach: beam")]) 500), served_auto).
Proof. reflexivity. Qed.

(** In auto mode a request without a model falls back to the default
    model, which is split like any other. *)
Example auto_splits_the_default_model :
  proxy "sk-test" accepting answering (VDict [("messages", VList sample_messages)]) served_auto =
  (Ok (Response (VDict [("error", VStr "Unknown approach: gpt")]) 500), served_auto).
Proof. reflexivity. Qed.

(** A message without a role makes line 54 raise, outside the [try]
    block. *)
Example message_without_role_escapes :
  proxy "sk-test" accepting answering
    (VDict [("model", VStr "gpt-4o-mini");
            ("messages", VList [VDict [("content", VStr "first question")]])])
    (served_with "bon" "") =
  (Raise (KeyError "role"), served_with "bon" "").
Proof. reflexivity. Qed.

(** A base url that the constructor of the client does not take makes
    line 61 raise, outside the [try] block; with the empty base url the
    constructor is not called. *)
Example rejected_base_url_escapes :
  proxy "sk-test" rejecting answering (VDict (sample_payload "gpt-4o-mini"))
    (served_with "bon" "http://[::1") =
  (Raise (ClientError "Invalid URL"), served_with "bon" "http://[::1") ∧
  fst (proxy "sk-test" rejecting answering (VDict (sample_payload "gpt-4o-mini"))
         (served_with "bon" "")) =
  Ok (Response (response_data (VStr "gpt-4o-mini") (VStr "answer")) 200).
Proof. split; reflexivity. Qed.

(** The dict of lines 31-42 has no ['base_url']: a request served before
    [main] has run raises on line 58. *)
Example base_url_is_set_by_main :
  proxy "sk-test" accepting answering (VDict (sample_payload "gpt-4o-mini"))
    (State initial_server_config []) =
  (Raise (KeyError "base_url"), State initial_server_config []) ∧
  server_config served_auto !! "base_url" = Some (SStr "").
Proof. split; reflexivity. Qed.

(** * Further properties of the handler *)

(** ** The one call of a request *)

Lemma dispatch_cases run a system_prompt initial_query cl model n s :
  (∃ e, dispatch run a system_prompt initial_query cl model n s = (Raise e, s)) ∨
  (∃ c, dispatch run a system_prompt initial_query cl model n s = invoke run c s ∧
        a = SStr (call_approach c) ∧
        call_system_prompt c = system_prompt ∧
        call_initial_query c = initial_query ∧
        call_client c = cl ∧
        call_model c = model).
Proof.
  unfold dispatch.
  repeat case_bool_decide; subst;
    unfold mbind, M_bind, config_item, raise;
    repeat match goal with
           | |- context [server_config s !! ?key] => destruct (server_config s !! key)
           end;
    first [ left; eexists; reflexivity
          | right; eexists; split; [reflexivity|]; repeat split ].
Qed.

Lemma invoke_state run c s :
  snd (invoke run c s) = State (server_config s) (invoked s ++ [c]).
Proof. unfold invoke. now destruct (run c). Qed.

Lemma proxy_cases API_KEY client_error run data s :
  (∃ e, proxy API_KEY client_error run data s = (Raise e, s)) ∨
  (∃ r e, resolution API_KEY client_error data s = (Ok r, s) ∧
          proxy API_KEY client_error run data s = (Ok (Response (error_data e) 500), s)) ∨
  (∃ r c, resolution API_KEY client_error data s = (Ok r, s) ∧
          r_approach r = SStr (call_approach c) ∧
          call_system_prompt c = req_system_prompt (r_request r) ∧
          call_initial_query c = req_initial_query (r_request r) ∧
          call_client c = r_client r ∧
          call_model c = r_model r ∧
          proxy API_KEY client_error run data s =
          (match run c with
           | Returned v => Ok (Response (response_data (r_model r) v) 200)
           | Raised msg => Ok (Response (error_data (StrategyError msg)) 500)
           end, State (server_config s) (invoked s ++ [c]))).
Proof.
  unfold proxy.
  destruct (resolution API_KEY client_error data s) as [[r|e] s1] eqn:Hr;
    pose proof (resolution_state _ _ _ _ _ _ Hr) as ->.
  - erewrite bind_ok by exact Hr.
    destruct (dispatch_cases run (r_approach r) (req_system_prompt (r_request r))
                (req_initial_query (r_request r)) (r_client r) (r_model r)
                (req_n (r_request r)) s)
      as [[e Hd]|(c & Hd & Ha & Hsp & Hiq & Hcl & Hm)].
    + right. left. exists r, e. split; [reflexivity|]. now apply respond_raised.
    + right. right. exists r, c. repeat (split; [assumption || reflexivity|]).
      unfold invoke in Hd. destruct (run c) as [v|msg].
      * now apply respond_returned.
      * now apply respond_raised.
  - left. exists e. now apply bind_raise.
Qed.

(** X1.  A request calls at most one strategy: after the handler the state
    is the one before, or the one before with one call added to the log. *)
Theorem request_calls_at_most_one_strategy API_KEY client_error run data s :
  snd (proxy API_KEY client_error run data s) = s ∨
  ∃ c, snd (proxy API_KEY client_error run data s) = State (server_config s) (invoked s ++ [c]).
Proof.
  destruct (proxy_cases API_KEY client_error run data s)
    as [[e Hp]|[(r & e & _ & Hp)|(r & c & _ & _ & _ & _ & _ & _ & Hp)]]; rewrite Hp; eauto.
Qed.

(** X2.  The strategy that is called is the one of the resolved approach,
    and it is given the first system content, the first user content and
    the resolved model of the request. *)
Theorem strategy_is_called_with_the_resolved_request API_KEY client_error run data s r s' c :
  resolution API_KEY client_error data s = (Ok r, s') ->
  invoked (snd (proxy API_KEY client_error run data s)) = (invoked s ++ [c])%list ->
  r_approach r = SStr (call_approach c) ∧
  call_system_prompt c = req_system_prompt (r_request r) ∧
  call_initial_query c = req_initial_query (r_request r) ∧
  call_model c = r_model r.
Proof.
  intros Hr Hc.
  destruct (proxy_cases API_KEY client_error run data s)
    as [[e Hp]|[(r' & e & _ & Hp)|(r' & c' & Hr' & Ha & Hsp & Hiq & _ & Hm & Hp)]];
    rewrite Hp in Hc; simpl in Hc; try now apply not_own_extension in Hc.
  apply app_inj_tail in Hc as [_ ->].
  pose proof (resolution_state _ _ _ _ _ _ Hr) as ->.
  rewrite Hr in Hr'. injection Hr' as <-. auto.
Qed.

Lemma strategy_is_called_with_the_resolved_request_witness :
  ∃ c, invoked (snd (proxy "sk-test" accepting answering (VDict (sample_payload "rto-gpt-4o-mini"))
                       served_auto)) = [c] ∧
       call_approach c = "rto" ∧
       call_system_prompt c = VStr "be brief" ∧
       call_initial_query c = VStr "first question" ∧
       call_model c = VStr "gpt-4o-mini".
Proof.
  eexists. split; [reflexivity|].
  destruct (strategy_is_called_with_the_resolved_request "sk-test" accepting answering
              (VDict (sample_payload "rto-gpt-4o-mini")) served_auto
              (Resolved (ChatRequest (VStr "rto-gpt-4o-mini") (VInt 1) (VStr "be brief")
                           (VStr "first question"))
                 (OpenAI "sk-test" None) (SStr "rto") (VStr "gpt-4o-mini"))
              served_auto
              (round_trip_optimization (VStr "be brief") (VStr "first question")
                 (OpenAI "sk-test" None) (VStr "gpt-4o-mini"))
              eq_refl eq_refl) as (Ha & Hsp & Hiq & Hm).
  split; [exact (f_equal py_str (eq_sym Ha))|].
  split; [exact Hsp|]. split; [exact Hiq|exact Hm].
Defined.

(** X3.  The response reports what the one call came back with: its value,
    assembled under the model the call was given, with the status 200, or
    the str of its exception as the error of a 500 response. *)
Theorem response_reports_the_call API_KEY client_error run data s c :
  invoked (snd (proxy API_KEY client_error run data s)) = (invoked s ++ [c])%list ->
  (∀ v, run c = Returned v ->
        fst (proxy API_KEY client_error run data s) =
        Ok (Response (response_data (call_model c) v) 200)) ∧
  (∀ msg, run c = Raised msg ->
          fst (proxy API_KEY client_error run data s) =
          Ok (Response (VDict [("error", VStr msg)]) 500)).
Proof.
  intros Hc.
  destruct (proxy_cases API_KEY client_error run data s)
    as [[e Hp]|[(r' & e & _ & Hp)|(r' & c' & _ & _ & _ & _ & _ & Hm & Hp)]];
    rewrite Hp in Hc; simpl in Hc; try now apply not_own_extension in Hc.
  apply app_inj_tail in Hc as [_ ->]. rewrite Hp, Hm. simpl.
  split; intros x Hx; now rewrite Hx.
Qed.

Lemma response_reports_the_call_witness :
  fst (proxy "sk-test" accepting failing (VDict (sample_payload "gpt-4o-mini")) (served_with "moa" "")) =
  Ok (Response (VDict [("error", VStr "backend unreachable")]) 500).
Proof.
  apply (response_reports_the_call "sk-test" accepting failing
           (VDict (sample_payload "gpt-4o-mini")) (served_with "moa" "")
           (mixture_of_agents (VStr "be brief") (VStr "first question")
              (OpenAI "sk-test" None) (VStr "gpt-4o-mini"))); reflexivity.
Defined.

(** ** The configuration after [main] *)

Lemma main_state args s :
  snd (main args s) = State (config_of_args args ∪ server_config s) (invoked s).
Proof. reflexivity. Qed.

Lemma config_of_args_None args key :
  config_of_args args !! key = None <-> key ∉ config_keys.
Proof.
  unfold config_of_args. rewrite <- not_elem_of_list_to_map.
  unfold config_keys. cbn [fmap list_fmap fst]. rewrite !not_elem_of_cons. tauto.
Qed.

Lemma config_of_args_Some args key :
  key ∈ config_keys -> is_Some (config_of_args args !! key).
Proof.
  intros Hkey. destruct (config_of_args args !! key) eqn:Hnone; [eauto|].
  now apply config_of_args_None in Hnone.
Qed.

Lemma main_configured args s : configured (snd (main args s)).
Proof.
  rewrite main_state. unfold configured. apply Forall_forall. intros key Hkey. cbn.
  destruct (config_of_args_Some args key Hkey) as [v Hv].
  exists v. now apply lookup_union_Some_l.
Qed.

Lemma main_lookup args s key v :
  config_of_args args !! key = Some v -> server_config (snd (main args s)) !! key = Some v.
Proof. intros Hv. rewrite main_state. cbn. now apply lookup_union_Some_l. Qed.

Lemma configured_lookup s key :
  configured s -> key ∈ config_keys -> ∃ v, server_config s !! key = Some v.
Proof. intros Hs Hkey. unfold configured in Hs. rewrite Forall_forall in Hs. now apply Hs. Qed.

Lemma registered_name a :
  registered a = true -> ∃ name, a = SStr name ∧ name ∈ approaches.
Proof.
  unfold registered. intros (name & Hname & Ha)%existsb_exists.
  exists name. split; [now apply bool_decide_eq_true in Ha|now apply list_elem_of_In].
Qed.

Ltac in_config_keys :=
  unfold config_keys; repeat first [apply list_elem_of_here | apply list_elem_of_further].

Lemma dispatch_registered run a system_prompt initial_query cl model n s :
  registered a = true ->
  configured s ->
  ∃ c, dispatch run a system_prompt initial_query cl model n s = invoke run c s ∧
       a = SStr (call_approach c).
Proof.
  intros (name & -> & Hname)%registered_name Hs.
  assert (∀ key, key ∈ config_keys -> ∃ v, server_config s !! key = Some v) as Hkey
    by (intros key; now apply configured_lookup).
  destruct (Hkey "mcts_simulations") as [v1 H1]; [in_config_keys|].
  destruct (Hkey "mcts_exploration") as [v2 H2]; [in_config_keys|].
  destruct (Hkey "mcts_depth") as [v3 H3]; [in_config_keys|].
  destruct (Hkey "best_of_n") as [v4 H4]; [in_config_keys|].
  destruct (Hkey "rstar_max_depth") as [v5 H5]; [in_config_keys|].
  destruct (Hkey "rstar_num_rollouts") as [v6 H6]; [in_config_keys|].
  destruct (Hkey "rstar_c") as [v7 H7]; [in_config_keys|].
  destruct (Hkey "return_full_response") as [v8 H8]; [in_config_keys|].
  unfold approaches in Hname.
  repeat (apply elem_of_cons in Hname as [->|Hname]);
    [..|now apply elem_of_nil in Hname];
    unfold dispatch;
    repeat first [ rewrite bool_decide_eq_true_2 by reflexivity
                 | rewrite bool_decide_eq_false_2 by discriminate ];
    repeat (erewrite bind_ok by (apply config_item_ok; eassumption));
    eexists; split; reflexivity.
Qed.

(** X4.  Once [main] has run with an approach other than "auto" that the
    dispatch knows, and with a base url that is empty or that the
    constructor of the client takes, every payload of the data model is
    answered: the handler calls the strategy of that approach, once, and
    returns a response of status 200 or 500. *)
Theorem served_request_is_answered API_KEY client_error run args s0 d :
  registered (SStr (args_approach args)) = true ->
  client_is_built client_error (SStr (args_base_url args)) ->
  chat_payload d = true ->
  ∃ resp c,
    proxy API_KEY client_error run (VDict d) (snd (main args s0)) =
    (Ok resp, State (server_config (snd (main args s0))) (invoked s0 ++ [c])) ∧
    call_approach c = args_approach args ∧
    (status resp = 200 ∨ status resp = 500).
Proof.
  intros Hreg Hbuilt Hd. set (s := snd (main args s0)).
  assert (configured s) as Hs by apply main_configured.
  assert (server_config s !! "approach" = Some (SStr (args_approach args))) as Ha
    by now apply main_lookup.
  assert (server_config s !! "model" = Some (SStr (args_model args))) as Hm
    by now apply main_lookup.
  assert (server_config s !! "n" = Some (SInt (args_n args))) as Hn
    by now apply main_lookup.
  assert (server_config s !! "base_url" = Some (SStr (args_base_url args))) as Hb
    by now apply main_lookup.
  assert (SStr (args_approach args) ≠ SStr "auto") as Hauto
    by (intros Heq; now rewrite Heq in Hreg).
  destruct (resolution_fixed API_KEY client_error d s _ _ _ _ Hd Hm Hn Ha Hauto Hb Hbuilt)
    as (req & _ & _ & Hr).
  set (r := Resolved req (client_for API_KEY (SStr (args_base_url args)))
              (SStr (args_approach args)) (req_model req)) in *.
  destruct (dispatch_registered run (r_approach r) (req_system_prompt (r_request r))
              (req_initial_query (r_request r)) (r_client r) (r_model r)
              (req_n (r_request r)) s Hreg Hs) as (c & Hc & Hname).
  unfold proxy. erewrite bind_ok by exact Hr.
  unfold invoke in Hc. change (invoked s) with (invoked s0) in Hc.
  injection Hname as Hname.
  destruct (run c) as [v|msg].
  - rewrite (respond_returned _ _ _ _ _ Hc). do 2 eexists. repeat split; auto.
  - rewrite (respond_raised _ _ _ _ _ Hc). do 2 eexists. repeat split; auto.
Qed.

Lemma served_request_is_answered_witness :
  ∃ resp c,
    proxy "sk-test" accepting answering (VDict (sample_payload "gpt-4o-mini"))
      (served_with "pvg" "http://localhost:8080/v1") =
    (Ok resp, State (server_config (served_with "pvg" "http://localhost:8080/v1")) [c]) ∧
    call_approach c = "pvg" ∧
    (status resp = 200 ∨ status resp = 500).
Proof.
  apply (served_request_is_answered "sk-test" accepting answering
           {| args_approach := "pvg"; args_simulations := 2;
              args_exploration := "0.2"; args_depth := 1; args_best_of_n := 3;
              args_model := "gpt-4o-mini"; args_base_url := "http://localhost:8080/v1";
              args_rstar_max_depth := 3; args_rstar_num_rollouts := 5;
              args_rstar_c := "1.4"; args_n := 1;
              args_return_full_response := false |}
           (State initial_server_config []) (sample_payload "gpt-4o-mini"));
    first [reflexivity | intros _; reflexivity].
Defined.

(** X5.  [main] sets every key the module-level dict has, so none of the
    values of lines 31-42 is left once it has run; and had it run before,
    nothing of the earlier arguments is left either. *)
Theorem main_replaces_the_configuration :
  (∀ args calls,
     server_config (snd (main args (State initial_server_config calls))) =
     config_of_args args) ∧
  (∀ args1 args2 s,
     server_config (snd (main args2 (snd (main args1 s)))) =
     server_config (snd (main args2 s))).
Proof.
  split.
  - intros args calls. rewrite main_state. cbn [server_config].
    apply map_eq. intros key. rewrite lookup_union.
    destruct (config_of_args args !! key) as [v|] eqn:Hkey.
    + now destruct (initial_server_config !! key).
    + apply config_of_args_None in Hkey.
      assert (initial_server_config !! key = None) as ->; [|reflexivity].
      unfold initial_server_config. apply not_elem_of_list_to_map.
      cbn [fmap list_fmap fst]. unfold config_keys in Hkey.
      rewrite !not_elem_of_cons in *. tauto.
  - intros args1 args2 s. rewrite !main_state. cbn [server_config].
    apply map_eq. intros key. rewrite !lookup_union.
    destruct (config_of_args args2 !! key) as [v|] eqn:Hkey.
    + now destruct (config_of_args args1 !! key), (server_config s !! key).
    + apply config_of_args_None in Hkey.
      apply (config_of_args_None args1) in Hkey. rewrite Hkey.
      now destruct (server_config s !! key).
Qed.

(** X6.  As long as the configuration has no ['base_url'], which is how
    lines 31-42 leave it, a payload of the data model makes line 58 raise
    a [KeyError] that leaves the handler; no strategy is called. *)
Theorem request_without_base_url_raises API_KEY client_error run d s dm dn a :
  chat_payload d = true ->
  server_config s !! "model" = Some dm ->
  server_config s !! "n" = Some dn ->
  server_config s !! "approach" = Some a ->
  server_config s !! "base_url" = None ->
  proxy API_KEY client_error run (VDict d) s = (Raise (KeyError "base_url"), s).
Proof.
  intros Hd Hm Hn Ha Hb. unfold proxy, resolution, resolve.
  apply bind_raise. erewrite bind_ok by (eapply translate_ok; eassumption).
  erewrite bind_ok by (apply config_item_ok; eassumption).
  apply bind_raise. unfold config_item. now rewrite Hb.
Qed.

Lemma request_without_base_url_raises_witness :
  proxy "sk-test" accepting answering (VDict (sample_payload "gpt-4o-mini"))
    (State initial_server_config []) =
  (Raise (KeyError "base_url"), State initial_server_config []).
Proof.
  apply (request_without_base_url_raises "sk-test" accepting answering (sample_payload "gpt-4o-mini")
           (State initial_server_config []) (SStr "gpt-4o-mini") (SInt 1) (SStr "bon"));
    reflexivity.
Defined.

(** X7.  A payload that is no JSON object (a list, a str, a number, null)
    makes line 50 raise an [AttributeError] that leaves the handler: the
    configuration is not read and no strategy is called. *)
Theorem payload_that_is_no_object_raises API_KEY client_error run data s :
  (∀ d, data ≠ VDict d) ->
  proxy API_KEY client_error run data s =
  (Raise (AttributeError ("'" +:+ type_name data +:+ "' object has no attribute 'get'")), s).
Proof.
  intros Hdata. unfold proxy, resolution, translate.
  do 3 apply bind_raise.
  destruct data as [a|elems|d]; try reflexivity. now destruct (Hdata d).
Qed.

Lemma payload_that_is_no_object_raises_witness :
  proxy "sk-test" accepting answering (Atom SNone) served_auto =
  (Raise (AttributeError "'NoneType' object has no attribute 'get'"), served_auto).
Proof.
  apply (payload_that_is_no_object_raises "sk-test" accepting answering (Atom SNone) served_auto).
  discriminate.
Defined.

(** ** How far the generator of lines 54-55 reads *)

Lemma next_content_skip role pre rest s :
  forallb is_message pre = true ->
  forallb (fun m => negb (has_role role m)) pre = true ->
  next_content role (pre ++ rest) s = next_content role rest s.
Proof.
  induction pre as [|m pre IH]; [reflexivity|].
  cbn [forallb app]. intros [Hm Hpre]%andb_prop [Hrole Hnone]%andb_prop.
  destruct m as [a|elems|items]; try discriminate.
  unfold is_message, has_key in Hm. apply andb_prop in Hm as [Hr _].
  destruct (dict_lookup items "role") as [r|] eqn:Er; [|discriminate].
  rewrite (next_content_step _ _ _ _ _ Er).
  unfold has_role in Hrole. rewrite Er in Hrole.
  destruct (eq_str r role); [discriminate|]. now apply IH.
Qed.

(** X8.  The generator stops at the first message of the role: whatever
    stands after that message in ['messages'], be it no message at all, is
    not looked at and cannot make the request fail. *)
Theorem messages_after_the_first_match_are_not_read role pre items content post s :
  forallb is_message pre = true ->
  forallb (fun m => negb (has_role role m)) pre = true ->
  dict_lookup items "role" = Some (VStr role) ->
  dict_lookup items "content" = Some content ->
  next_content role (pre ++ VDict items :: post) s = (Ok content, s).
Proof.
  intros Hpre Hnone Hrole Hcontent.
  rewrite next_content_skip by assumption.
  rewrite (next_content_step _ _ _ _ _ Hrole). cbn [eq_str].
  rewrite bool_decide_eq_true_2 by reflexivity.
  unfold subscript. now rewrite Hcontent.
Qed.

Lemma messages_after_the_first_match_are_not_read_witness :
  next_content "system"
    ([message "user" "first question"] ++
     VDict [("role", VStr "system"); ("content", VStr "be brief")] ::
     [Atom SNone; VList []; VDict [("content", VStr "no role")]]) served_auto =
  (Ok (VStr "be brief"), served_auto).
Proof.
  apply (messages_after_the_first_match_are_not_read "system"
           [message "user" "first question"]
           [("role", VStr "system"); ("content", VStr "be brief")] (VStr "be brief")
           [Atom SNone; VList []; VDict [("content", VStr "no role")]] served_auto);
    reflexivity.
Defined.

(** X9.  Before the first message of the role every message is read: one
    without a ['role'] there raises [KeyError('role')], and a first
    message of the role without a ['content'] raises [KeyError('content')],
    whatever follows. *)
Theorem message_without_key_raises role pre items post s :
  forallb is_message pre = true ->
  forallb (fun m => negb (has_role role m)) pre = true ->
  (dict_lookup items "role" = None ->
   next_content role (pre ++ VDict items :: post) s = (Raise (KeyError "role"), s)) ∧
  (dict_lookup items "role" = Some (VStr role) ->
   dict_lookup items "content" = None ->
   next_content role (pre ++ VDict items :: post) s = (Raise (KeyError "content"), s)).
Proof.
  intros Hpre Hnone. rewrite next_content_skip by assumption. split.
  - intros Hrole. cbn [next_content]. apply bind_raise.
    unfold subscript. now rewrite Hrole.
  - intros Hrole Hcontent.
    rewrite (next_content_step _ _ _ _ _ Hrole). cbn [eq_str].
    rewrite bool_decide_eq_true_2 by reflexivity.
    unfold subscript. now rewrite Hcontent.
Qed.

Lemma message_without_key_raises_witness :
  next_content "user"
    ([message "system" "be brief"] ++ VDict [("content", VStr "no role")] ::
     [message "user" "first question"]) served_auto =
  (Raise (KeyError "role"), served_auto).
Proof.
  apply (message_without_key_raises "user" [message "system" "be brief"]
           [("content", VStr "no role")] [message "user" "first question"] served_auto);
    reflexivity.
Defined.

(** ** Requests do not see each other *)

Lemma co_ret {A : Type} (a : A) : config_only (mret a : M A).
Proof. intros s1 s2 _. reflexivity. Qed.

Lemma co_raise {A : Type} (e : exn) : config_only (raise e : M A).
Proof. intros s1 s2 _. reflexivity. Qed.

Lemma co_config_item key : config_only (config_item key).
Proof.
  intros s1 s2 Hs. unfold config_item. rewrite Hs.
  now destruct (server_config s2 !! key).
Qed.

Lemma co_invoke run c : config_only (invoke run c).
Proof. intros s1 s2 _. unfold invoke. now destruct (run c). Qed.

Lemma co_bind {A B : Type} (m : M A) (k : A -> M B) :
  config_only m -> keeps_config m -> (∀ a, config_only (k a)) -> config_only (m ≫= k).
Proof.
  intros Hm Hkeep Hk s1 s2 Hs. unfold mbind, M_bind.
  pose proof (Hm s1 s2 Hs) as Hfst.
  pose proof (Hkeep s1) as H1. pose proof (Hkeep s2) as H2.
  destruct (m s1) as [[a1|e1] t1], (m s2) as [[a2|e2] t2]; simpl in *; try discriminate.
  - injection Hfst as ->. apply Hk. congruence.
  - now injection Hfst as ->.
Qed.

Lemma co_try_except {A : Type} (body : M A) (handler : exn -> M A) :
  config_only body -> keeps_config body -> (∀ e, config_only (handler e)) ->
  config_only (try_except body handler).
Proof.
  intros Hb Hkeep Hh s1 s2 Hs. unfold try_except.
  pose proof (Hb s1 s2 Hs) as Hfst.
  pose proof (Hkeep s1) as H1. pose proof (Hkeep s2) as H2.
  destruct (body s1) as [[a1|e1] t1], (body s2) as [[a2|e2] t2]; simpl in *; try discriminate.
  - exact Hfst.
  - injection Hfst as ->. apply Hh. congruence.
Qed.

Lemma co_pure_value {A : Type} (m : M A) :
  (∀ s1 s2, fst (m s1) = fst (m s2)) -> config_only m.
Proof. intros Hm s1 s2 _. apply Hm. Qed.

Lemma co_getattr_get obj : config_only (getattr_get obj).
Proof. destruct obj as [a|elems|items]; first [apply co_ret | apply co_raise]. Qed.

Lemma co_py_iter obj : config_only (py_iter obj).
Proof.
  destruct obj as [[| | | |str]|elems|items]; first [apply co_ret | apply co_raise].
Qed.

Lemma co_subscript obj key : config_only (subscript obj key).
Proof.
  destruct obj as [[| | | |str]|elems|items]; cbn [subscript];
    try destruct (dict_lookup items key); first [apply co_ret | apply co_raise].
Qed.

Lemma co_next_content role msgs : config_only (next_content role msgs).
Proof.
  induction msgs as [|msg rest IH]; cbn [next_content]; [apply co_ret|].
  apply co_bind; [apply co_subscript|apply keeps_pure, pure_subscript|].
  intros r. destruct (eq_str r role); [apply co_subscript|exact IH].
Qed.

Lemma co_split_model model : config_only (split_model model).
Proof.
  destruct model as [[| | | |str]|elems|items]; first [apply co_ret | apply co_raise].
Qed.

Lemma co_list_item parts i : config_only (list_item parts i).
Proof. unfold list_item. destruct (parts !! i); first [apply co_ret | apply co_raise]. Qed.

Lemma co_select_client API_KEY client_error b :
  config_only (select_client API_KEY client_error b).
Proof.
  unfold select_client, new_client. case_bool_decide; [|apply co_ret].
  destruct (client_error b); first [apply co_ret | apply co_raise].
Qed.

Ltac config_only_step :=
  first [ apply co_ret | apply co_raise | apply co_config_item | apply co_invoke
        | apply co_getattr_get | apply co_py_iter | apply co_next_content
        | apply co_split_model | apply co_list_item | apply co_select_client ].

Ltac keeps_config_step :=
  first [ apply keeps_invoke
        | apply keeps_pure;
          first [ apply pure_config_item | apply pure_getattr_get | apply pure_py_iter
                | apply pure_next_content | apply pure_split_model | apply pure_list_item
                | apply pure_select_client | apply pure_ret | apply pure_raise ] ].

Ltac config_only_steps :=
  repeat first
    [ config_only_step
    | apply co_bind; [config_only_step|keeps_config_step|intros ?]
    | progress cbv zeta
    | match goal with |- config_only (if ?b then _ else _) => destruct b end ].

Lemma co_translate data : config_only (translate data).
Proof. unfold translate. config_only_steps. Qed.

Lemma co_resolve API_KEY client_error req : config_only (resolve API_KEY client_error req).
Proof. unfold resolve. config_only_steps. Qed.

Lemma co_dispatch run a system_prompt initial_query cl model n :
  config_only (dispatch run a system_prompt initial_query cl model n).
Proof. unfold dispatch. config_only_steps. Qed.

Lemma co_respond run r : config_only (respond run r).
Proof.
  unfold respond. apply co_bind.
  - apply co_try_except.
    + apply co_bind; [apply co_dispatch|apply keeps_dispatch|intros v; apply co_ret].
    + apply keeps_bind; [apply keeps_dispatch|]. intros v. apply keeps_pure, pure_ret.
    + intros e. apply co_ret.
  - apply keeps_try_except.
    + apply keeps_bind; [apply keeps_dispatch|]. intros v. apply keeps_pure, pure_ret.
    + intros e. apply keeps_pure, pure_ret.
  - intros [v|resp]; apply co_ret.
Qed.

Lemma co_proxy API_KEY client_error run data : config_only (proxy API_KEY client_error run data).
Proof.
  unfold proxy, resolution. apply co_bind.
  - apply co_bind; [apply co_translate|apply keeps_pure, pure_translate|].
    intros req. apply co_resolve.
  - apply keeps_pure, pure_resolution.
  - intros r. apply co_respond.
Qed.

(** X11.  A request does not change what a later request gets: whether
    the earlier one was answered, was refused or made the handler raise,
    the later one has the result it would have had without it (the
    strategies being taken to answer by their arguments alone). *)
Theorem earlier_request_does_not_change_a_later_one API_KEY client_error run data1 data2 s :
  fst (proxy API_KEY client_error run data2 (snd (proxy API_KEY client_error run data1 s))) =
  fst (proxy API_KEY client_error run data2 s).
Proof. apply co_proxy, keeps_proxy. Qed.

(** ** What the request's ['n'] reaches *)

Lemma dispatch_n run a system_prompt initial_query cl model n n' :
  a ≠ SStr "plansearch" ->
  dispatch run a system_prompt initial_query cl model n =
  dispatch run a system_prompt initial_query cl model n'.
Proof.
  intros Ha. unfold dispatch. repeat case_bool_decide; try reflexivity. contradiction.
Qed.

Lemma translate_with_n d v s :
  match translate (VDict d) s with
  | (Ok req, s') =>
      translate (VDict (("n", v) :: d)) s =
      (Ok (ChatRequest (req_model req) v (req_system_prompt req) (req_initial_query req)), s')
  | (Raise e, s') => translate (VDict (("n", v) :: d)) s = (Raise e, s')
  end.
Proof.
  unfold translate. cbn [getattr_get]. unfold mbind, M_bind, mret, M_ret.
  cbn beta iota zeta. unfold dict_get. cbn [dict_lookup].
  rewrite !(bool_decide_eq_false_2 ("n" = "messages")) by discriminate.
  rewrite !(bool_decide_eq_false_2 ("n" = "model")) by discriminate.
  rewrite !(bool_decide_eq_true_2 ("n" = "n")) by reflexivity.
  destruct (config_item "model" s) as [[dm|e] s1]; [|reflexivity].
  destruct (config_item "n" s1) as [[dn|e] s2]; [|reflexivity].
  destruct (py_iter (default (VList []) (dict_lookup d "messages")) s2) as [[msgs|e] s3];
    [|reflexivity].
  destruct (next_content "system" msgs s3) as [[system_prompt|e] s4]; [|reflexivity].
  destruct (py_iter (default (VList []) (dict_lookup d "messages")) s4) as [[msgs'|e] s5];
    [|reflexivity].
  destruct (next_content "user" msgs' s5) as [[initial_query|e] s6]; reflexivity.
Qed.

Lemma resolve_with_n API_KEY client_error req v s :
  match resolve API_KEY client_error req s with
  | (Ok r, s') =>
      resolve API_KEY client_error
        (ChatRequest (req_model req) v (req_system_prompt req) (req_initial_query req)) s =
      (Ok (Resolved
             (ChatRequest (req_model req) v (req_system_prompt req) (req_initial_query req))
             (r_client r) (r_approach r) (r_model r)), s')
  | (Raise e, s') =>
      resolve API_KEY client_error
        (ChatRequest (req_model req) v (req_system_prompt req) (req_initial_query req)) s =
      (Raise e, s')
  end.
Proof.
  unfold resolve. cbn [req_model]. unfold mbind, M_bind, mret, M_ret.
  destruct (config_item "approach" s) as [[a|e] s1]; [|reflexivity].
  destruct (config_item "base_url" s1) as [[b|e] s0]; [|reflexivity].
  destruct (select_client API_KEY client_error b s0) as [[cl|e] s2]; [|reflexivity].
  case_bool_decide; [|reflexivity].
  destruct (split_model (req_model req) s2) as [[parts|e] s3]; [|reflexivity].
  destruct (list_item parts 0 s3) as [[before|e] s4]; [|reflexivity].
  destruct (list_item parts 1 s4) as [[after|e] s5]; reflexivity.
Qed.

Lemma resolution_with_n API_KEY client_error d v s :
  match resolution API_KEY client_error (VDict d) s with
  | (Ok r, s') =>
      resolution API_KEY client_error (VDict (("n", v) :: d)) s =
      (Ok (Resolved
             (ChatRequest (req_model (r_request r)) v (req_system_prompt (r_request r))
                (req_initial_query (r_request r)))
             (r_client r) (r_approach r) (r_model r)), s')
  | (Raise e, s') => resolution API_KEY client_error (VDict (("n", v) :: d)) s = (Raise e, s')
  end.
Proof.
  unfold resolution. pose proof (translate_with_n d v s) as Ht.
  destruct (translate (VDict d) s) as [[req|e] s1] eqn:Hreq.
  - rewrite (bind_ok _ _ _ _ _ Hreq), (bind_ok _ _ _ _ _ Ht).
    pose proof (resolve_with_n API_KEY client_error req v s1) as Hres.
    destruct (resolve API_KEY client_error req s1) as [[r|e] s2] eqn:Hr; [|exact Hres].
    apply resolve_inv in Hr as (_ & _ & _ & _ & -> & _). exact Hres.
  - now rewrite (bind_raise _ _ _ _ _ Hreq), (bind_raise _ _ _ _ _ Ht).
Qed.

(** X10.  The ['n'] of a request reaches the strategy of "plansearch"
    only: for any other resolved approach, a request with an ['n'] has the
    result and makes the call that the request without it has. *)
Theorem n_matters_to_plansearch_only API_KEY client_error run d v s :
  (∀ r s', resolution API_KEY client_error (VDict d) s = (Ok r, s') ->
           r_approach r ≠ SStr "plansearch") ->
  proxy API_KEY client_error run (VDict (("n", v) :: d)) s = proxy API_KEY client_error run (VDict d) s.
Proof.
  intros Hplan. unfold proxy.
  pose proof (resolution_with_n API_KEY client_error d v s) as Hn.
  destruct (resolution API_KEY client_error (VDict d) s) as [[r|e] s1] eqn:Hr.
  - rewrite (bind_ok _ _ _ _ _ Hn), (bind_ok _ _ _ _ _ Hr).
    unfold respond. cbn [r_request r_approach r_client r_model req_n req_system_prompt
                           req_initial_query].
    now rewrite (dispatch_n run (r_approach r) _ _ _ _ v (req_n (r_request r)))
      by (eapply Hplan; reflexivity).
  - now rewrite (bind_raise _ _ _ _ _ Hn), (bind_raise _ _ _ _ _ Hr).
Qed.

Lemma n_matters_to_plansearch_only_witness :
  proxy "sk-test" accepting sampling (VDict (("n", VInt 5) :: sample_payload "gpt-4o-mini"))
    (served_with "bon" "") =
  proxy "sk-test" accepting sampling (VDict (sample_payload "gpt-4o-mini")) (served_with "bon" "").
Proof.
  apply (n_matters_to_plansearch_only "sk-test" accepting sampling (sample_payload "gpt-4o-mini")
           (VInt 5) (served_with "bon" "")).
  intros r s' Hr. vm_compute in Hr. injection Hr as <- _. discriminate.
Defined.

(** ** Which models auto mode resolves *)

Lemma contains_hyphen_split m :
  contains_hyphen m = true -> ∃ before after, split_hyphen m = Some (before, after).
Proof.
  induction m as [|c m IH]; simpl; [discriminate|].
  destruct (bool_decide (c = "-"%char)); [eauto|]. simpl. intros Hm.
  destruct (IH Hm) as (before & after & ->). eauto.
Qed.

(** X12.  In auto mode the resolution of a payload of the data model
    succeeds exactly when line 61 does not raise (the base url is empty or
    the constructor of the client takes it) and the model of the request
    (the default model if it has none) is a str with a hyphen in it. *)
Theorem auto_resolves_models_with_a_hyphen API_KEY client_error d s dm dn b :
  chat_payload d = true ->
  server_config s !! "model" = Some dm ->
  server_config s !! "n" = Some dn ->
  server_config s !! "approach" = Some (SStr "auto") ->
  server_config s !! "base_url" = Some b ->
  (∃ r, resolution API_KEY client_error (VDict d) s = (Ok r, s)) <->
  (client_is_built client_error b ∧
   ∃ m, dict_get d "model" (Atom dm) = VStr m ∧ contains_hyphen m = true).
Proof.
  intros Hd Hm Hn Ha Hb. split.
  - intros [r Hr]. split; [exact (resolution_built _ _ _ _ _ _ _ Hr Hb)|].
    apply resolution_inv in Hr as (d' & dm' & a & _ & [= <-] & Hm' & Ha' & _ & _ & Hres).
    assert (dm' = dm) as -> by congruence. assert (a = SStr "auto") as -> by congruence.
    destruct Hres as [(_ & m & before & after & Hmodel & Hsplit & _)|[Hne _]];
      [|now destruct Hne].
    exists m. split; [exact Hmodel|].
    destruct (contains_hyphen m) eqn:Hhyphen; [reflexivity|].
    apply split_hyphen_none in Hhyphen. congruence.
  - intros (Hbuilt & m & Hmodel & Hhyphen).
    apply contains_hyphen_split in Hhyphen as (before & after & Hsplit).
    eexists. unfold resolution.
    erewrite bind_ok by (eapply translate_ok; eassumption).
    eapply resolve_auto; eauto.
Qed.

Lemma auto_resolves_models_with_a_hyphen_witness :
  (∃ r, resolution "sk-test" accepting (VDict (sample_payload "mcts-gpt-4o-mini"))
          (served_with "auto" "http://localhost:8080/v1") =
        (Ok r, served_with "auto" "http://localhost:8080/v1")) ∧
  ¬ (∃ r, resolution "sk-test" rejecting (VDict (sample_payload "mcts-gpt-4o-mini"))
            (served_with "auto" "http://localhost:8080/v1") =
          (Ok r, served_with "auto" "http://localhost:8080/v1")) ∧
  ¬ (∃ r, resolution "sk-test" accepting (VDict (sample_payload "gpt4"))
            (served_with "auto" "http://localhost:8080/v1") =
          (Ok r, served_with "auto" "http://localhost:8080/v1")).
Proof.
  split; [|split].
  - apply (auto_resolves_models_with_a_hyphen "sk-test" accepting
             (sample_payload "mcts-gpt-4o-mini")
             (served_with "auto" "http://localhost:8080/v1")
             (SStr "gpt-4o-mini") (SInt 1) (SStr "http://localhost:8080/v1"));
      [reflexivity..|].
    split; [intros _; reflexivity|].
    exists "mcts-gpt-4o-mini". split; reflexivity.
  - intros Hr.
    apply (auto_resolves_models_with_a_hyphen "sk-test" rejecting
             (sample_payload "mcts-gpt-4o-mini")
             (served_with "auto" "http://localhost:8080/v1")
             (SStr "gpt-4o-mini") (SInt 1) (SStr "http://localhost:8080/v1"))
      in Hr as [Hbuilt _]; [|reflexivity..].
    discriminate Hbuilt. discriminate.
  - intros Hr.
    apply (auto_resolves_models_with_a_hyphen "sk-test" accepting (sample_payload "gpt4")
             (served_with "auto" "http://localhost:8080/v1")
             (SStr "gpt-4o-mini") (SInt 1) (SStr "http://localhost:8080/v1"))
      in Hr as [_ (m & Hmodel & Hhyphen)]; [|reflexivity..].
    injection Hmodel as <-. discriminate Hhyphen.
Defined.

(** ** The empty result *)

(** X14.  The response has no choice exactly when the strategy returned
    the empty list; any other result, the empty str and null among them,
    gives at least one choice. *)
Theorem no_choice_for_the_empty_list_only v :
  choices_of v = [] <-> v = VList [].
Proof.
  split; [|now intros ->].
  destruct v as [a|l|items]; try discriminate. intros Hnil.
  apply (f_equal length) in Hnil. rewrite length_choices_of_list in Hnil.
  now destruct l.
Qed.

(** ** The credential *)

Lemma select_client_rekey key1 key2 client_error b s :
  select_client key2 client_error b s =
  match select_client key1 client_error b s with
  | (Ok cl, s') => (Ok (rekey key2 cl), s')
  | (Raise e, s') => (Raise e, s')
  end.
Proof.
  unfold select_client, new_client. case_bool_decide; [|reflexivity].
  now destruct (client_error b).
Qed.

Lemma respond_fst run r s :
  fst (respond run r s) =
  match fst (dispatch run (r_approach r) (req_system_prompt (r_request r))
               (req_initial_query (r_request r)) (r_client r) (r_model r)
               (req_n (r_request r)) s) with
  | Ok v => Ok (Response (response_data (r_model r) v) 200)
  | Raise e => Ok (Response (error_data e) 500)
  end.
Proof.
  destruct (dispatch run (r_approach r) (req_system_prompt (r_request r))
              (req_initial_query (r_request r)) (r_client r) (r_model r)
              (req_n (r_request r)) s) as [[v|e] s1] eqn:Hd.
  - now rewrite (respond_returned _ _ _ _ _ Hd).
  - now rewrite (respond_raised _ _ _ _ _ Hd).
Qed.

Lemma dispatch_rekey run key a system_prompt initial_query cl model n s :
  (∀ k c, run (call_rekey k c) = run c) ->
  fst (dispatch run a system_prompt initial_query (rekey key cl) model n s) =
  fst (dispatch run a system_prompt initial_query cl model n s).
Proof.
  intros Hrun. unfold dispatch.
  repeat case_bool_decide;
    unfold mbind, M_bind, config_item, raise;
    repeat match goal with
           | |- context [server_config s !! ?k] => destruct (server_config s !! k)
           end;
    try reflexivity;
    match goal with
    | |- fst (invoke run _ s) = fst (invoke run ?c s) =>
        unfold invoke; rewrite <- (Hrun key c); cbn [call_rekey];
        match goal with |- context [run ?c'] => now destruct (run c') end
    end.
Qed.

Lemma resolve_rekey key1 key2 client_error req s :
  match resolve key1 client_error req s with
  | (Ok r, s') =>
      resolve key2 client_error req s =
      (Ok (Resolved (r_request r) (rekey key2 (r_client r)) (r_approach r) (r_model r)), s')
  | (Raise e, s') => resolve key2 client_error req s = (Raise e, s')
  end.
Proof.
  unfold resolve. unfold mbind, M_bind, mret, M_ret.
  destruct (config_item "approach" s) as [[a|e] s1]; [|reflexivity].
  destruct (config_item "base_url" s1) as [[b|e] s0]; [|reflexivity].
  rewrite (select_client_rekey key1 key2 client_error b s0).
  destruct (select_client key1 client_error b s0) as [[cl|e] s2]; [|reflexivity].
  case_bool_decide; [|reflexivity].
  destruct (split_model (req_model req) s2) as [[parts|e] s3]; [|reflexivity].
  destruct (list_item parts 0 s3) as [[before|e] s4]; [|reflexivity].
  destruct (list_item parts 1 s4) as [[after|e] s5]; reflexivity.
Qed.

(** X15.  The handler puts the credential into the client of the call and
    nowhere else: if the outcome of no strategy hangs on the credential of
    its client, the result of a request is the same under any two
    credentials. *)
Theorem credential_reaches_the_client_only key1 key2 client_error run data s :
  (∀ k c, run (call_rekey k c) = run c) ->
  fst (proxy key1 client_error run data s) = fst (proxy key2 client_error run data s).
Proof.
  intros Hrun. unfold proxy, resolution.
  destruct (translate data s) as [[req|e] s1] eqn:Hreq.
  - pose proof (resolve_rekey key1 key2 client_error req s1) as Hres.
    destruct (resolve key1 client_error req s1) as [[r|e] s2] eqn:Hr.
    + rewrite (bind_ok (translate data ≫= resolve key1 client_error) _ s r s2)
        by (now rewrite (bind_ok _ _ _ _ _ Hreq)).
      rewrite (bind_ok (translate data ≫= resolve key2 client_error) _ s _ s2)
        by (rewrite (bind_ok _ _ _ _ _ Hreq); exact Hres).
      rewrite !respond_fst.
      cbn [r_request r_approach r_client r_model].
      now rewrite dispatch_rekey.
    + rewrite (bind_raise (translate data ≫= resolve key1 client_error) _ s e s2)
        by (now rewrite (bind_ok _ _ _ _ _ Hreq)).
      now rewrite (bind_raise (translate data ≫= resolve key2 client_error) _ s e s2)
        by (rewrite (bind_ok _ _ _ _ _ Hreq); exact Hres).
  - rewrite (bind_raise (translate data ≫= resolve key1 client_error) _ s e s1)
      by (now rewrite (bind_raise _ _ _ _ _ Hreq)).
    now rewrite (bind_raise (translate data ≫= resolve key2 client_error) _ s e s1)
      by (now rewrite (bind_raise _ _ _ _ _ Hreq)).
Qed.

Lemma credential_reaches_the_client_only_witness :
  fst (proxy "sk-one" accepting sampling (VDict (sample_payload "gpt-4o-mini")) (served_with "z3" "")) =
  fst (proxy "sk-two" accepting sampling (VDict (sample_payload "gpt-4o-mini")) (served_with "z3" "")).
Proof.
  apply (credential_reaches_the_client_only "sk-one" "sk-two" accepting sampling
           (VDict (sample_payload "gpt-4o-mini")) (served_with "z3" "")).
  intros k c. reflexivity.
Defined.

(** ** Payloads outside the data model *)

Lemma next_content_str role c rest s :
  ∃ msg, next_content role (VStr c :: rest) s = (Raise (TypeError msg), s).
Proof. eexists. cbn [next_content]. apply bind_raise. reflexivity. Qed.

(** X13.  A ['messages'] that is no list is still iterated: the empty str
    and the empty dict are read as no messages at all, while any other
    value (a str or a dict that is not empty, a number, a bool, null)
    makes line 54 raise a [TypeError] that leaves the handler. *)
Theorem messages_that_are_no_list d v s dm dn :
  dict_lookup d "messages" = Some v ->
  (∀ l, v ≠ VList l) ->
  server_config s !! "model" = Some dm ->
  server_config s !! "n" = Some dn ->
  (v = VStr "" ∨ v = VDict [] ->
   ∃ req, translate (VDict d) s = (Ok req, s) ∧
          req_system_prompt req = VStr "" ∧ req_initial_query req = VStr "") ∧
  (v ≠ VStr "" -> v ≠ VDict [] ->
   ∃ msg, translate (VDict d) s = (Raise (TypeError msg), s)).
Proof.
  intros Hv Hlist Hm Hn.
  unfold translate. cbn [getattr_get].
  do 2 (erewrite bind_ok by reflexivity).
  erewrite bind_ok by (apply config_item_ok; eassumption).
  erewrite bind_ok by reflexivity.
  erewrite bind_ok by (apply config_item_ok; eassumption).
  cbv zeta.
  assert (dict_get d "messages" (VList []) = v) as -> by (unfold dict_get; now rewrite Hv).
  split.
  - intros [-> | ->]; eexists; (split; [reflexivity|split; reflexivity]).
  - intros Hstr Hdict.
    destruct v as [[| | | |str]|l|items].
    1-4: eexists; apply bind_raise; reflexivity.
    + destruct str as [|c str]; [now destruct Hstr|].
      destruct (next_content_str "system" (String c EmptyString) (characters str) s)
        as [msg Hmsg].
      exists msg. erewrite bind_ok by reflexivity. now apply bind_raise.
    + now destruct (Hlist l).
    + destruct items as [|[k x] items]; [now destruct Hdict|].
      destruct (next_content_str "system" k (map (fun kv => VStr (fst kv)) items) s)
        as [msg Hmsg].
      exists msg. erewrite bind_ok by reflexivity. now apply bind_raise.
Qed.

Lemma messages_that_are_no_list_witness :
  ∃ msg, translate (VDict [("model", VStr "gpt-4o-mini"); ("messages", Atom SNone)])
           served_auto = (Raise (TypeError msg), served_auto).
Proof.
  destruct (messages_that_are_no_list
              [("model", VStr "gpt-4o-mini"); ("messages", Atom SNone)] (Atom SNone)
              served_auto (SStr "gpt-4o-mini") (SInt 1)) as [_ Hraise];
    [reflexivity|discriminate|reflexivity|reflexivity|].
  apply Hraise; discriminate.
Defined.

(** X16.  In auto mode a model that is no str (a number, null, a list)
    has no [split]: when line 61 has not raised before (the base url is
    empty or the constructor of the client takes it), line 66 raises an
    [AttributeError] that leaves the handler, and no strategy is called. *)
Theorem auto_model_that_is_no_str_raises API_KEY client_error run d s dm dn b v :
  chat_payload d = true ->
  server_config s !! "model" = Some dm ->
  server_config s !! "n" = Some dn ->
  server_config s !! "approach" = Some (SStr "auto") ->
  server_config s !! "base_url" = Some b ->
  client_is_built client_error b ->
  dict_get d "model" (Atom dm) = v ->
  (∀ m, v ≠ VStr m) ->
  proxy API_KEY client_error run (VDict d) s =
  (Raise (AttributeError ("'" +:+ type_name v +:+ "' object has no attribute 'split'")), s).
Proof.
  intros Hd Hm Hn Ha Hb Hbuilt Hv Hstr. unfold proxy, resolution.
  apply bind_raise. erewrite bind_ok by (eapply translate_ok; eassumption).
  unfold resolve.
  erewrite bind_ok by (apply config_item_ok; eassumption).
  erewrite bind_ok by (apply config_item_ok; eassumption).
  erewrite bind_ok by (apply select_client_built; exact Hbuilt).
  rewrite bool_decide_eq_true_2 by reflexivity.
  apply bind_raise. cbn [req_model]. rewrite Hv.
  destruct v as [[| | | |m]|l|items]; try reflexivity. now destruct (Hstr m).
Qed.

Lemma auto_model_that_is_no_str_raises_witness :
  proxy "sk-test" accepting answering (VDict [("model", VInt 4)])
    (served_with "auto" "http://localhost:8080/v1") =
  (Raise (AttributeError "'int' object has no attribute 'split'"),
   served_with "auto" "http://localhost:8080/v1").
Proof.
  apply (auto_model_that_is_no_str_raises "sk-test" accepting answering [("model", VInt 4)]
           (served_with "auto" "http://localhost:8080/v1") (SStr "gpt-4o-mini") (SInt 1)
           (SStr "http://localhost:8080/v1") (VInt 4));
    first [reflexivity | intros _; reflexivity | discriminate].
Defined.
